(** * PyPM particle mesh: the [ParticleMesh] state machine

    A shallow embedding of [src/pypm/particlemesh.py].  The class
    [ParticleMesh] is a state machine over one FFT buffer, seen through a
    real view and a complex view, and a stack of saved complex fields.

    Conventions of the embedding:
    - numpy scalars (f4, f8) are read as real numbers ([R]); rounding is
      outside the model.  A complex number is a pair of reals.  Where a
      statement depends on rounding, the expression is also given as
      binary64 arithmetic executes it ([Binary64], [transform_binary64]);
    - a numpy array whose shape is fixed by the partition is a vector
      ([vec]) of its cells in storage order, so that an in-place
      assignment [a[:] = b] cannot change its shape;
    - a method is an action of the monad [M]: it receives the object,
      returns a value or raises, and leaves the (mutated) object behind
      in both cases, as a Python method does;
    - the collaborators that are not part of this module (the pfft
      engine, the CIC kernel, MPI) are interfaces: type classes whose
      operations the methods call. *)

From Stdlib Require Import Reals Lra ZArith Lia List SpecFloat.
From stdpp Require Import base list fin vector.
Import ListNotations.

Local Open Scope R_scope.

(** ** Exceptions and outcomes *)

Inductive Exception : Type :=
  | IndexError
  | ValueError
  | ZeroDivisionError
  | RuntimeError
  | OverflowError
  | NonFiniteFloat.

Inductive Outcome (A : Type) : Type :=
  | Return (a : A)
  | Raise (e : Exception).

Arguments Return {A} a.
Arguments Raise {A} e.

Definition obind {A B : Type} (o : Outcome A) (k : A -> Outcome B) : Outcome B :=
  match o with
  | Return a => k a
  | Raise e => Raise e
  end.

(** ** The method monad

    A method of an object of type [St]: it returns or raises, and the
    object is left as the method mutated it in both cases. *)

Definition M (St A : Type) : Type := St -> Outcome A * St.

Definition ret {St A} (a : A) : M St A := fun self => (Return a, self).

Definition raise {St A} (e : Exception) : M St A := fun self => (Raise e, self).

Definition bind {St A B} (m : M St A) (k : A -> M St B) : M St B :=
  fun self =>
    match m self with
    | (Return a, self') => k a self'
    | (Raise e, self') => (Raise e, self')
    end.

Definition gets {St A} (f : St -> A) : M St A :=
  fun self => (Return (f self), self).

Definition modify {St} (f : St -> St) : M St unit :=
  fun self => (Return tt, f self).

(** An expression that reads the object and may raise. *)
Definition eval {St A} (f : St -> Outcome A) : M St A :=
  fun self => (f self, self).

Declare Scope method_scope.
Delimit Scope method_scope with method.

Notation "x <- m ;; k" := (bind m (fun x => k))
  (at level 100, m at next level, right associativity) : method_scope.
Notation "m ;; k" := (bind m (fun _ => k))
  (at level 100, right associativity) : method_scope.

(** for x in l: body(x) *)
Fixpoint for_each {St A} (l : list A) (body : A -> M St unit) : M St unit :=
  match l with
  | [] => ret tt
  | x :: l' => bind (body x) (fun _ => for_each l' body)
  end.

(** [f(x) for x in l], stopping at the first exception. *)
Fixpoint omapM {A B} (f : A -> Outcome B) (l : list A) : Outcome (list B) :=
  match l with
  | [] => Return []
  | x :: l' => obind (f x) (fun y => obind (omapM f l') (fun ys => Return (y :: ys)))
  end.

(** Python float division [a / b]. *)
Definition float_div (a b : R) : Outcome R :=
  if Req_EM_T b 0 then Raise ZeroDivisionError else Return (a / b).

(** The largest finite float (binary64): (2 - 2^-52) * 2^1023. *)
Definition float_max : R := (2 - / 2 ^ 52) * 2 ^ 1023.

(** Python float power [a ** n], for floats read as reals.  For a base
    in the range of the finite floats, float.__pow__ returns the power
    when it is in that range and raises OverflowError when it is not.  A
    base beyond the range stands for the float inf, which a division
    that overflows returns without raising; its power is inf again, and
    inf (with the nan it breeds) is what the reals cannot carry: the
    model stops there with [NonFiniteFloat], which is a mark of the
    embedding and not an exception of Python. *)
Definition float_pow (a : R) (n : nat) : Outcome R :=
  if Rle_dec (Rabs a) float_max then
    if Rle_dec (Rabs (a ^ n)) float_max then Return (a ^ n)
    else Raise OverflowError
  else Raise NonFiniteFloat.

(** ** numpy values *)

(** A complex scalar: real and imaginary part. *)
Definition Cnum : Type := (R * R)%type.

(** An array of positions, of shape (N, 3). *)
Definition Position : Type := vec R 3.

(** The [mass] argument of paint: a scalar or one value per particle. *)
Inductive Mass : Type :=
  | scalar (m : R)
  | per_particle (ms : list R).

(** A small n-dimensional array of reals: its shape and its cells. *)
Record NDArray : Type := mkNDArray {
  shape : vec nat 3;
  data : list R
}.

(** numpy.arange(n, dtype='f4'): 0, 1, ..., n-1 as scalars. *)
Definition arange (n : nat) : list R := map INR (seq 0 n).

(** wi.reshape(s) *)
Definition reshape (wi : list R) (s : vec nat 3) : NDArray :=
  {| shape := s; data := wi |}.

(** The three axes, range(Ndim). *)
Definition axes : list (fin 3) := [0%fin; 1%fin; 2%fin].

(** list.pop(): the last element and the list without it. *)
Fixpoint list_pop {A : Type} (l : list A) : option (A * list A) :=
  match l with
  | [] => None
  | x :: l' =>
      match list_pop l' with
      | None => Some (x, [])
      | Some (y, r) => Some (y, x :: r)
      end
  end.

(** ** The pfft engine *)

Inductive TransformType : Type :=
  | PFFT_R2C | PFFT_C2R | PFFTF_R2C | PFFTF_C2R.

Inductive Direction : Type :=
  | PFFT_FORWARD | PFFT_BACKWARD.

Inductive Flag : Type :=
  | PFFT_ESTIMATE | PFFT_TRANSPOSED_IN | PFFT_TRANSPOSED_OUT | PFFT_DESTROY_INPUT.

Inductive DType : Type :=
  | f8 | f4 | other_dtype.

(** What a pfft.Partition exposes to this module, for one rank. *)
Record Partition : Type := mkPartition {
  local_i_start : vec Z 3;
  local_ni : vec nat 3;
  local_o_start : vec Z 3;
  local_no : vec nat 3
}.

(** partition.Ndim, for the mesh [Nmesh, Nmesh, Nmesh]. *)
Definition Ndim : nat := 3.

(** Number of cells of a local array of the given shape. *)
Definition extent (s : vec nat 3) : nat :=
  (s !!! 0%fin * s !!! 1%fin * s !!! 2%fin)%nat.

(** ** binary64 arithmetic

    The float operations of Python and numpy on f8 values, as IEEE 754
    binary64 with rounding to nearest even. *)
Module Binary64.

Definition float : Type := spec_float.

Definition prec : Z := 53%Z.
Definition emax : Z := 1024%Z.

Definition add : float -> float -> float := SFadd prec emax.
Definition sub : float -> float -> float := SFsub prec emax.
Definition mul : float -> float -> float := SFmul prec emax.
Definition div : float -> float -> float := SFdiv prec emax.

(** x == y on floats. *)
Definition eqb : float -> float -> bool := SFeqb.

(** The float nearest to an integer (a C conversion: never fails). *)
Definition of_int (z : Z) : float := binary_normalize prec emax z 0%Z false.

Definition one : float := of_int 1.

(** float(n) for a Python int: OverflowError when n is too large. *)
Definition int_to_float (z : Z) : Outcome float :=
  match of_int z with
  | S754_infinity _ => Raise OverflowError
  | f => Return f
  end.

(** Python float division a / b. *)
Definition truediv (a b : float) : Outcome float :=
  if eqb b (S754_zero false) then Raise ZeroDivisionError else Return (div a b).

End Binary64.

(** transform and transform0 on a mesh of [Nmesh] points and box size
    [BoxSize] whose partition is [p], as binary64 arithmetic executes
    the two expressions on an f8 array of positions: 1.0 * Nmesh is the
    float of Nmesh, the quotient is a Python float division, the product
    with x and the subtraction of local_i_start (converted to f8) are
    numpy's elementwise operations. *)
Definition transform_binary64 (p : Partition) (Nmesh : Z) (BoxSize : Binary64.float)
    (x : list (vec Binary64.float 3)) : Outcome (list (vec Binary64.float 3)) :=
  obind (Binary64.int_to_float Nmesh) (fun n =>
  obind (Binary64.truediv (Binary64.mul Binary64.one n) BoxSize) (fun k =>
  Return (map (fun xi : vec Binary64.float 3 =>
                 vzip_with (fun c s => Binary64.sub (Binary64.mul k c) (Binary64.of_int s))
                   xi (local_i_start p)) x))).

Definition transform0_binary64 (p : Partition) (Nmesh : Z) (BoxSize : Binary64.float)
    (x : list (vec Binary64.float 3)) : Outcome (list (vec Binary64.float 3)) :=
  obind (Binary64.int_to_float Nmesh) (fun n =>
  obind (Binary64.truediv (Binary64.mul Binary64.one n) BoxSize) (fun k =>
  Return (map (fun xi : vec Binary64.float 3 =>
                 vmap (fun c => Binary64.mul k c) xi) x))).

(** The interface of pfft and MPI.  A [LocalBuffer] is one allocation;
    [view_input] and [view_output] are its two numpy views, the real one
    and the complex one; [assign_input] and [assign_output] write a whole
    view in place.  The only facts assumed of a buffer are that a view
    reads back what was written through it; nothing is assumed about what
    a write through one view does to the other one. *)
Class PFFT : Type := {
  Comm : Type;
  COMM_WORLD : Comm;
  comm_size : Comm -> nat;
  split_size_2d : nat -> list nat;
  ProcMesh : Type;
  new_ProcMesh : list nat -> option Comm -> Outcome ProcMesh;
  new_Partition : TransformType -> list Z -> ProcMesh -> list Flag -> Partition;
  LocalBuffer : Partition -> Type;
  new_LocalBuffer : forall p : Partition, LocalBuffer p;
  view_input : forall {p}, LocalBuffer p -> vec R (extent (local_ni p));
  view_output : forall {p}, LocalBuffer p -> vec Cnum (extent (local_no p));
  assign_input : forall {p}, vec R (extent (local_ni p)) -> LocalBuffer p -> LocalBuffer p;
  assign_output : forall {p}, vec Cnum (extent (local_no p)) -> LocalBuffer p -> LocalBuffer p;
  view_assign_input : forall p (v : vec R (extent (local_ni p))) (b : LocalBuffer p),
      view_input (assign_input v b) = v;
  view_assign_output : forall p (v : vec Cnum (extent (local_no p))) (b : LocalBuffer p),
      view_output (assign_output v b) = v;
  Plan : Partition -> Type;
  new_Plan : forall p : Partition, Direction -> TransformType -> list Flag -> Plan p;
  execute : forall {p}, Plan p -> LocalBuffer p -> LocalBuffer p
}.

(** The interface of the CIC kernel.  [cic_paint] accumulates into the
    field it is given (returned here as the new contents) and may raise;
    [cic_readout] returns one value per position. *)
Inductive Mode : Type := ignore.

Class CIC : Type := {
  cic_paint : forall n : nat, list Position -> vec R n -> Mass -> Mode -> Z ->
              (list Position -> Outcome (list Position)) -> Outcome unit * vec R n;
  cic_readout : forall n : nat, vec R n -> list Position -> Mode -> Z ->
                (list Position -> Outcome (list Position)) -> Outcome (list R)
}.

Section ParticleMeshClass.

Context `{engine : PFFT} `{kernel : CIC}.

(** ** The object *)

(** The attributes of a ParticleMesh whose partition is [p].  [real] and
    [complex] are not attributes of their own: they are the two views of
    [buffer]. *)
Record ParticleMesh (p : Partition) : Type := mkParticleMesh {
  comm : Comm;
  procmesh : ProcMesh;
  Nmesh : Z;
  BoxSize : R;
  buffer : LocalBuffer p;
  forward : Plan p;
  backward : Plan p;
  verbose : bool;
  stack : list (vec Cnum (extent (local_no p)))
}.

Arguments comm {p} _.
Arguments procmesh {p} _.
Arguments Nmesh {p} _.
Arguments BoxSize {p} _.
Arguments buffer {p} _.
Arguments forward {p} _.
Arguments backward {p} _.
Arguments verbose {p} _.
Arguments stack {p} _.


(** self.real and self.complex: the two views of the one buffer. *)
Definition real {p} (self : ParticleMesh p) : vec R (extent (local_ni p)) :=
  view_input (buffer self).

Definition complex {p} (self : ParticleMesh p) : vec Cnum (extent (local_no p)) :=
  view_output (buffer self).

Definition set_buffer {p} (b : LocalBuffer p) (self : ParticleMesh p) : ParticleMesh p :=
  {| comm := comm self; procmesh := procmesh self; Nmesh := Nmesh self;
     BoxSize := BoxSize self; buffer := b; forward := forward self;
     backward := backward self; verbose := verbose self; stack := stack self |}.

Definition set_stack {p} (st : list (vec Cnum (extent (local_no p))))
    (self : ParticleMesh p) : ParticleMesh p :=
  {| comm := comm self; procmesh := procmesh self; Nmesh := Nmesh self;
     BoxSize := BoxSize self; buffer := buffer self; forward := forward self;
     backward := backward self; verbose := verbose self; stack := st |}.

(** self.real[...] = v and self.complex[...] = v, in place. *)
Definition set_real {p} (v : vec R (extent (local_ni p))) (self : ParticleMesh p) :=
  set_buffer (assign_input v (buffer self)) self.

Definition set_complex {p} (v : vec Cnum (extent (local_no p))) (self : ParticleMesh p) :=
  set_buffer (assign_output v (buffer self)) self.

(** A transfer function is called as transfer(comm, complex, w) and
    mutates the complex field in place; here it returns the new cells. *)
Definition TransferFunction (p : Partition) : Type :=
  Comm -> vec Cnum (extent (local_no p)) -> list NDArray -> vec Cnum (extent (local_no p)).

Local Open Scope method_scope.

(** ** __init__

    The timers and the domain decomposition object play no part in the
    methods below and are left out.  Building a plan with PFFT_ESTIMATE
    does not write to the arrays it is given. *)
Definition __init__ (BoxSize : R) (Nmesh : Z) (comm : option Comm) (np : option (list nat))
    (verbose : bool) (dtype : DType) : Outcome { p : Partition & ParticleMesh p } :=
  let self_comm := match comm with None => COMM_WORLD | Some c => c end in
  let np := match np with None => split_size_2d (comm_size self_comm) | Some n => n end in
  obind (match dtype with
         | f8 => Return (PFFT_R2C, PFFT_C2R)
         | f4 => Return (PFFTF_R2C, PFFTF_C2R)
         | other_dtype => Raise ValueError
         end) (fun '(forward, backward) =>
  obind (new_ProcMesh np comm) (fun procmesh =>
  let partition :=
    new_Partition forward [Nmesh; Nmesh; Nmesh] procmesh
      [PFFT_TRANSPOSED_OUT; PFFT_DESTROY_INPUT] in
  let buffer := new_LocalBuffer partition in
  let buffer := assign_input (vreplicate _ 0) buffer in
  Return (existT partition
    {| comm := self_comm; procmesh := procmesh; Nmesh := Nmesh; BoxSize := BoxSize;
       buffer := buffer;
       forward := new_Plan partition PFFT_FORWARD forward
                    [PFFT_ESTIMATE; PFFT_TRANSPOSED_OUT; PFFT_DESTROY_INPUT];
       backward := new_Plan partition PFFT_BACKWARD backward
                    [PFFT_ESTIMATE; PFFT_TRANSPOSED_IN; PFFT_DESTROY_INPUT];
       verbose := verbose;
       stack := [] |}))).

(** ** Coordinate transforms *)

Definition transform {p} (self : ParticleMesh p) (x : list Position) : Outcome (list Position) :=
  obind (float_div (1 * IZR (Nmesh self)) (BoxSize self)) (fun k =>
  Return (map (fun xi : Position =>
                 vzip_with (fun c s => k * c - IZR s) xi (local_i_start p)) x)).

Definition transform0 {p} (self : ParticleMesh p) (x : list Position) : Outcome (list Position) :=
  obind (float_div (1 * IZR (Nmesh self)) (BoxSize self)) (fun k =>
  Return (map (fun xi : Position => vmap (fun c => k * c) xi) x)).

(** ** Field lifecycle *)

(** The body of clear is its docstring: the method returns None and
    writes nothing. *)
Definition clear {p} : M (ParticleMesh p) unit := ret tt.

Definition paint {p} (pos : list Position) (mass : Mass) : M (ParticleMesh p) unit :=
  fun self =>
    let '(r, field) :=
      cic_paint _ pos (real self) mass ignore (Nmesh self) (transform self) in
    (r, set_real field self).

(** The verbose report: a sum of the real view is reduced over the ranks
    and printed by rank 0; no attribute of the object is written. *)
Definition report_sum {p} : M (ParticleMesh p) unit := ret tt.

(** The last statement of r2c, [if self.procmesh.rank == 0: pass], does
    nothing on any rank. *)
Definition r2c {p} (pos : option (list Position)) (mass : Mass) : M (ParticleMesh p) unit :=
  match pos with
  | Some ps => clear ;; paint ps mass
  | None => ret tt
  end ;;
  k <- eval (fun self => obind (float_div 1 (BoxSize self)) (fun a => float_pow a 3)) ;;
  modify (fun self => set_real (vmap (fun v => v * k) (real self)) self) ;;
  v <- gets verbose ;;
  (if v : bool then report_sum else ret tt) ;;
  modify (fun self => set_buffer (execute (forward self) (buffer self)) self).

(** ** Snapshot stack *)

Definition push {p} : M (ParticleMesh p) unit :=
  modify (fun self => set_stack (stack self ++ [complex self]) self).

Definition pop {p} : M (ParticleMesh p) unit :=
  saved <- (fun self =>
              match list_pop (stack self) with
              | None => raise IndexError self
              | Some (top, rest) => ret top (set_stack rest self)
              end) ;;
  modify (set_complex saved).

(** ** Transfer functions *)

(** One pass of the loop over d in transfer: the array appended to w. *)
Definition kvector {p} (self : ParticleMesh p) (d : fin 3) : Outcome NDArray :=
  let s := vinsert d (local_no p !!! d) (vreplicate Ndim 1%nat) in
  let wi := map (fun v => v + IZR (local_o_start p !!! d)) (arange (s !!! d)) in
  let wi := map (fun v => if Rge_dec v (IZR (Nmesh self `div` 2))
                          then v - IZR (Nmesh self) else v) wi in
  obind (float_div (2 * PI) (IZR (Nmesh self))) (fun k =>
  let wi := map (fun v => v * k) wi in
  Return (reshape wi s)).

(** The list w built by the loop over d in range(Ndim). *)
Definition kvectors {p} (self : ParticleMesh p) : Outcome (list NDArray) :=
  omapM (kvector self) axes.

Definition transfer {p} (transfer_functions : list (TransferFunction p))
    : M (ParticleMesh p) unit :=
  w <- eval kvectors ;;
  for_each transfer_functions (fun transfer =>
    modify (fun self => set_complex (transfer (comm self) (complex self) w) self)).

Definition readout {p} (pos : option (list Position))
    : M (ParticleMesh p) (option (list R)) :=
  match pos with
  | Some ps =>
      rt <- eval (fun self =>
                    cic_readout _ (real self) ps ignore (Nmesh self) (transform self)) ;;
      ret (Some rt)
  | None => ret None
  end.

Definition c2r {p} (transfer_functions : list (TransferFunction p))
    : M (ParticleMesh p) unit :=
  push ;;
  transfer transfer_functions ;;
  modify (fun self => set_buffer (execute (backward self) (buffer self)) self) ;;
  v <- gets verbose ;;
  (if v : bool then report_sum else ret tt) ;;
  pop.

End ParticleMeshClass.

Arguments comm {engine p} _.
Arguments procmesh {engine p} _.
Arguments Nmesh {engine p} _.
Arguments BoxSize {engine p} _.
Arguments buffer {engine p} _.
Arguments forward {engine p} _.
Arguments backward {engine p} _.
Arguments verbose {engine p} _.
Arguments stack {engine p} _.

(** ** Vocabulary of the specification *)

(** The folded integer frequency of the global index [k] on a mesh of
    [N] points: [k] below the fold boundary N/2 (integer division, the
    [Nmesh // 2] of the source), [k - N] from the boundary on. *)
Definition folded_frequency (N k : Z) : Z :=
  if (k <? N `div` 2)%Z then k else (k - N)%Z.

(** A real in the range of the finite floats. *)
Definition finite_float (x : R) : Prop := Rabs x <= float_max.

(** The smallest positive normal float (binary64): 2^-1022. *)
Definition float_min_normal : R := / 2 ^ 1022.

(** A real in the range of the normal floats, where a float is its real
    up to one rounding: neither overflow nor underflow. *)
Definition normal_float (x : R) : Prop := float_min_normal <= Rabs x <= float_max.

(** The complex field after a chain of transfer functions has been
    applied to [c], first function first. *)
Definition apply_chain `{engine : PFFT} {p} (chain : list (TransferFunction p))
    (cm : Comm) (w : list NDArray) (c : vec Cnum (extent (local_no p)))
    : vec Cnum (extent (local_no p)) :=
  fold_left (fun c transfer => transfer cm c w) chain c.

(** ** Callers

    Ways a driver uses the object: the same call repeated, and a script
    of calls to the methods that are not push and pop. *)

(** m(); m(); ...: the same call n times. *)
Fixpoint times {St} (n : nat) (m : M St unit) : M St unit :=
  match n with
  | O => ret tt
  | S n' => bind m (fun _ => times n' m)
  end.

(** One call to a method of the pipeline, with its arguments. *)
Inductive Call `{engine : PFFT} (p : Partition) : Type :=
  | call_clear
  | call_paint (pos : list Position) (mass : Mass)
  | call_r2c (pos : option (list Position)) (mass : Mass)
  | call_transfer (transfer_functions : list (TransferFunction p))
  | call_readout (pos : option (list Position))
  | call_c2r (transfer_functions : list (TransferFunction p)).

Arguments call_clear {engine p}.
Arguments call_paint {engine p} pos mass.
Arguments call_r2c {engine p} pos mass.
Arguments call_transfer {engine p} transfer_functions.
Arguments call_readout {engine p} pos.
Arguments call_c2r {engine p} transfer_functions.

Definition perform `{engine : PFFT} `{kernel : CIC} {p} (c : Call p)
    : M (ParticleMesh p) unit :=
  match c with
  | call_clear => clear
  | call_paint pos mass => paint pos mass
  | call_r2c pos mass => r2c pos mass
  | call_transfer chain => transfer chain
  | call_readout pos => bind (readout pos) (fun _ => ret tt)
  | call_c2r chain => c2r chain
  end.

(** The calls of a script, one after the other, up to the first one
    that raises. *)
Definition script `{engine : PFFT} `{kernel : CIC} {p} (calls : list (Call p))
    : M (ParticleMesh p) unit :=
  for_each calls perform.

(** A method that writes to the buffer at most: whatever it returns or
    raises, the object it leaves differs from the one it received in the
    buffer only. *)
Definition writes_buffer_only `{engine : PFFT} {p A} (m : M (ParticleMesh p) A) : Prop :=
  forall self, exists b, snd (m self) = set_buffer b self.

(** ** A one-rank engine over one shared arena

    An instance of the pfft interface, used to run the methods on
    concrete meshes.  The buffer is one arena of real cells.  The real
    view reads the first cells of the arena; the complex view reads the
    same cells in pairs (real part, imaginary part), so that a write
    through either view is seen through the other.  A freshly allocated
    arena is not zeroed.  The plans of this engine leave the arena as it
    is. *)

Definition Arena : Type := nat -> R.

Definition arena_view_input (n : nat) (mem : Arena) : vec R n :=
  fun_to_vec (fun i : fin n => mem (fin_to_nat i)).

Definition arena_view_output (n : nat) (mem : Arena) : vec Cnum n :=
  fun_to_vec (fun i : fin n => (mem (2 * fin_to_nat i)%nat, mem (2 * fin_to_nat i + 1)%nat)).

Definition arena_assign_input (n : nat) (v : vec R n) (mem : Arena) : Arena :=
  fun k => match vec_to_list v !! k with
           | Some x => x
           | None => mem k
           end.

Definition arena_assign_output (n : nat) (v : vec Cnum n) (mem : Arena) : Arena :=
  fun k => match vec_to_list v !! (k / 2)%nat with
           | Some z => if Nat.even k then fst z else snd z
           | None => mem k
           end.

Definition one_rank_partition (shape : list Z) : Partition :=
  match shape with
  | [n0; n1; n2] =>
      {| local_i_start := [# 0%Z; 0%Z; 0%Z];
         local_ni := [# Z.to_nat n0; Z.to_nat n1; Z.to_nat n2];
         local_o_start := [# 0%Z; 0%Z; 0%Z];
         local_no := [# Z.to_nat n1; Z.to_nat n0; Z.to_nat (n2 / 2 + 1)] |}
  | _ =>
      {| local_i_start := [# 0%Z; 0%Z; 0%Z];
         local_ni := [# 0%nat; 0%nat; 0%nat];
         local_o_start := [# 0%Z; 0%Z; 0%Z];
         local_no := [# 0%nat; 0%nat; 0%nat] |}
  end.

Definition one_rank : PFFT.
Proof.
  refine
    {| Comm := unit;
       COMM_WORLD := tt;
       comm_size := fun _ => 1%nat;
       split_size_2d := fun _ => [1%nat; 1%nat];
       ProcMesh := unit;
       new_ProcMesh := fun np _ =>
         if decide (np = [1%nat; 1%nat]) then Return tt else Raise RuntimeError;
       new_Partition := fun _ shape _ _ => one_rank_partition shape;
       LocalBuffer := fun _ => Arena;
       new_LocalBuffer := fun _ _ => 1;
       view_input := fun p => arena_view_input (extent (local_ni p));
       view_output := fun p => arena_view_output (extent (local_no p));
       assign_input := fun p => arena_assign_input (extent (local_ni p));
       assign_output := fun p => arena_assign_output (extent (local_no p));
       Plan := fun _ => Direction;
       new_Plan := fun _ d _ _ => d;
       execute := fun _ _ mem => mem |}.
  - intros p v b. apply vec_eq. intros i.
    unfold arena_view_input, arena_assign_input.
    rewrite lookup_fun_to_vec.
    now rewrite (proj1 (vlookup_lookup v i (v !!! i)) eq_refl).
  - intros p v b. apply vec_eq. intros i.
    unfold arena_view_output, arena_assign_output.
    rewrite lookup_fun_to_vec.
    assert (E0 : ((2 * fin_to_nat i) / 2 = fin_to_nat i)%nat)
      by (rewrite Nat.mul_comm; apply Nat.div_mul; discriminate).
    assert (E1 : ((2 * fin_to_nat i + 1) / 2 = fin_to_nat i)%nat)
      by (rewrite Nat.mul_comm, Nat.add_comm, Nat.div_add by discriminate; reflexivity).
    rewrite E0, E1.
    pose proof (proj1 (vlookup_lookup v i (v !!! i)) eq_refl) as Hv.
    unfold Cnum in *. rewrite Hv.
    rewrite Nat.even_mul. simpl (Nat.even 2 || _)%bool.
    rewrite Nat.add_1_r, Nat.even_succ, <- Nat.negb_even, Nat.even_mul.
    simpl. now destruct (v !!! i).
Defined.

(** A kernel that deposits nothing and reads zero everywhere. *)
Definition null_kernel : CIC :=
  {| cic_paint := fun n _ field _ _ _ _ => (Return tt, field);
     cic_readout := fun n _ pos _ _ _ => Return (map (fun _ => 0) pos) |}.

(** A mesh of this engine whose real view holds 1.0 in every cell, the
    state of a mesh of 2 x 2 x 2 cells and box size 1 on which every cell
    has received unit mass. *)
Definition painted_mesh : @ParticleMesh one_rank (one_rank_partition [2%Z; 2%Z; 2%Z]) :=
  @mkParticleMesh one_rank (one_rank_partition [2%Z; 2%Z; 2%Z])
    tt tt 2%Z 1 (fun _ => 1) PFFT_FORWARD PFFT_BACKWARD false [].

(** The mesh that __init__(BoxSize=1.0, Nmesh=2) returns on this engine:
    the arena as allocated, with the real view zeroed. *)
Definition fresh_mesh : @ParticleMesh one_rank (one_rank_partition [2%Z; 2%Z; 2%Z]) :=
  @mkParticleMesh one_rank (one_rank_partition [2%Z; 2%Z; 2%Z])
    tt tt 2%Z 1
    (arena_assign_input _ (vreplicate (extent [# 2; 2; 2]%nat) 0) (fun _ => 1))
    PFFT_FORWARD PFFT_BACKWARD false [].

(** A mesh of 8 points per side and box size 1. *)
Definition mesh8 : @ParticleMesh one_rank (one_rank_partition [8%Z; 8%Z; 8%Z]) :=
  @mkParticleMesh one_rank (one_rank_partition [8%Z; 8%Z; 8%Z])
    tt tt 8%Z 1 (fun _ => 0) PFFT_FORWARD PFFT_BACKWARD false [].

(** The upper half, along the first axis, of a mesh of 4 points per side
    and box size 2: the partition of the second of two ranks. *)
Definition upper_half : Partition :=
  {| local_i_start := [# 2%Z; 0%Z; 0%Z];
     local_ni := [# 2; 4; 4]%nat;
     local_o_start := [# 0%Z; 2%Z; 0%Z];
     local_no := [# 4; 2; 3]%nat |}.

Definition upper_half_mesh : @ParticleMesh one_rank upper_half :=
  @mkParticleMesh one_rank upper_half
    tt tt 4%Z 2 (fun _ => 0) PFFT_FORWARD PFFT_BACKWARD true [].

(** A transfer function that rotates every cell of the field by a
    quarter turn: (re, im) becomes (-im, re). *)
Definition quarter_turn (p : Partition) : @TransferFunction one_rank p :=
  fun _ c _ => vmap (fun z : Cnum => (- snd z, fst z)) c.

(** A mesh of 7 points per side and box size 1. *)
Definition mesh7 : @ParticleMesh one_rank (one_rank_partition [7%Z; 7%Z; 7%Z]) :=
  @mkParticleMesh one_rank (one_rank_partition [7%Z; 7%Z; 7%Z])
    tt tt 7%Z 1 (fun _ => 0) PFFT_FORWARD PFFT_BACKWARD false [].

(** A mesh of 2 points per side and box size 2 whose real view holds 8.0
    in every cell. *)
Definition dense_mesh : @ParticleMesh one_rank (one_rank_partition [2%Z; 2%Z; 2%Z]) :=
  @mkParticleMesh one_rank (one_rank_partition [2%Z; 2%Z; 2%Z])
    tt tt 2%Z 2 (fun _ => 8) PFFT_FORWARD PFFT_BACKWARD false [].

(** The partition of the second of two ranks on a mesh of 128 points per
    side cut along the first axis: its local real extent starts at 64. *)
Definition second_half_of_128 : Partition :=
  {| local_i_start := [# 64%Z; 0%Z; 0%Z];
     local_ni := [# 64; 128; 128]%nat;
     local_o_start := [# 0%Z; 64%Z; 0%Z];
     local_no := [# 128; 64; 65]%nat |}.

Definition second_half_mesh : @ParticleMesh one_rank second_half_of_128 :=
  @mkParticleMesh one_rank second_half_of_128
    tt tt 128%Z 1 (fun _ => 0) PFFT_FORWARD PFFT_BACKWARD false [].

(** The float 0.00234375 (the quotient 3 / 1280, rounded). *)
Definition x_00234375 : Binary64.float :=
  Binary64.div (Binary64.of_int 3) (Binary64.of_int 1280).

(** A mesh object with no points and no volume (Nmesh = 0 and
    BoxSize = 0), on which every division of the methods fails. *)
Definition degenerate_mesh : @ParticleMesh one_rank (one_rank_partition [0%Z; 0%Z; 0%Z]) :=
  @mkParticleMesh one_rank (one_rank_partition [0%Z; 0%Z; 0%Z])
    tt tt 0%Z 0 (fun _ => 0) PFFT_FORWARD PFFT_BACKWARD false [].

(** A transfer function that doubles every cell of the field. *)
Definition doubling (p : Partition) : @TransferFunction one_rank p :=
  fun _ c _ => vmap (fun z : Cnum => (2 * fst z, 2 * snd z)) c.

(** * Properties *)

Section Properties.

Context `{engine : PFFT} `{kernel : CIC}.

Local Open Scope method_scope.

(** ** The views and the setters *)

Lemma real_set_real {p} (v : vec R (extent (local_ni p))) (self : ParticleMesh p) :
  real (set_real v self) = v.
Proof. unfold real, set_real. simpl. apply view_assign_input. Qed.

Lemma complex_set_complex {p} (v : vec Cnum (extent (local_no p))) (self : ParticleMesh p) :
  complex (set_complex v self) = v.
Proof. unfold complex, set_complex. simpl. apply view_assign_output. Qed.

Lemma set_stack_stack {p} (self : ParticleMesh p) : set_stack (stack self) self = self.
Proof. now destruct self. Qed.

(** ** list.pop *)

Lemma list_pop_app {A} (l : list A) (x : A) : list_pop (l ++ [x]) = Some (x, l).
Proof.
  induction l as [|y l IH]; simpl; [reflexivity|].
  now rewrite IH.
Qed.

Lemma list_pop_None {A} (l : list A) : list_pop l = None -> l = [].
Proof.
  destruct l as [|x l]; [reflexivity|]. simpl.
  destruct (list_pop l) as [[y r]|]; discriminate.
Qed.

Lemma list_pop_Some {A} (l : list A) (x : A) (r : list A) :
  list_pop l = Some (x, r) -> l = r ++ [x].
Proof.
  revert x r. induction l as [|y l IH]; intros x r; simpl; [discriminate|].
  destruct (list_pop l) as [[z r']|] eqn:E.
  - intros [= <- <-]. simpl. f_equal. now apply IH.
  - intros [= <- <-]. now rewrite (list_pop_None l E).
Qed.

Example list_pop_three : list_pop [1%nat; 2%nat; 3%nat] = Some (3%nat, [1%nat; 2%nat]).
Proof. reflexivity. Qed.

Example list_pop_empty : list_pop (@nil nat) = None.
Proof. reflexivity. Qed.

(** ** push and pop *)

Lemma push_run {p} (self : ParticleMesh p) :
  push self = (Return tt, set_stack (stack self ++ [complex self]) self).
Proof. reflexivity. Qed.

Lemma pop_run_snoc {p} (self : ParticleMesh p) top rest :
  stack self = rest ++ [top] ->
  pop self = (Return tt, set_complex top (set_stack rest self)).
Proof.
  intros E. unfold pop, bind. rewrite E, list_pop_app. reflexivity.
Qed.

Lemma pop_run_empty {p} (self : ParticleMesh p) :
  stack self = [] -> pop self = (Raise IndexError, self).
Proof.
  intros E. unfold pop, bind. now rewrite E.
Qed.

(** ** clear *)

Lemma clear_run {p} (self : ParticleMesh p) : clear self = (Return tt, self).
Proof. reflexivity. Qed.

(** ** C6: push then pop *)

(** C6.  For every mesh, push() followed at once by pop() returns, leaves
    the complex view equal to what it was before the push, and leaves the
    snapshot stack as it was (same entries, hence same depth).  The
    object as a whole is the one before the calls with its complex view
    rewritten with its own cells. *)
Theorem push_pop_restores {p} (self : ParticleMesh p) :
  exists self',
    (push ;; pop) self = (Return tt, self') /\
    self' = set_complex (complex self) self /\
    complex self' = complex self /\
    stack self' = stack self /\
    length (stack self') = length (stack self).
Proof.
  exists (set_complex (complex self) self).
  split; [|split; [reflexivity|split; [apply complex_set_complex|split; reflexivity]]].
  unfold bind. rewrite push_run.
  rewrite (pop_run_snoc _ (complex self) (stack self)) by reflexivity.
  now destruct self.
Qed.

(** ** C9: pop *)

(** C9.  pop() on a mesh whose stack is empty raises IndexError and
    leaves the object as it was; on a mesh whose stack is not empty it
    returns, removes the last entry of the stack and leaves the complex
    view equal to that entry. *)
Theorem pop_requires_nonempty {p} (self : ParticleMesh p) :
  match stack self with
  | [] => pop self = (Raise IndexError, self)
  | _ :: _ =>
      exists top rest self',
        stack self = rest ++ [top] /\
        pop self = (Return tt, self') /\
        complex self' = top /\
        stack self' = rest
  end.
Proof.
  destruct (stack self) as [|x l] eqn:E.
  - now apply pop_run_empty.
  - destruct (list_pop (x :: l)) as [[top rest]|] eqn:P.
    + apply list_pop_Some in P.
      exists top, rest, (set_complex top (set_stack rest self)).
      split; [exact P|]. split.
      * apply pop_run_snoc. now rewrite E.
      * split; [apply complex_set_complex|reflexivity].
    + apply list_pop_None in P. discriminate.
Qed.

(** ** C10: readout without positions *)

(** C10.  readout(None) returns None (not an empty array), calls no
    kernel and leaves the object, hence its real view, as it was. *)
Theorem readout_None_returns_None {p} (self : ParticleMesh p) :
  readout None self = (Return None, self) /\
  fst (readout None self) <> Return (Some []) /\
  real (snd (readout None self)) = real self.
Proof.
  split; [reflexivity|]. split; [|reflexivity].
  simpl. discriminate.
Qed.

(** ** C8: a fresh mesh *)

(** __init__ returns for dtype f8 and f4 whenever the process mesh is
    accepted by the engine. *)
Lemma init_returns BoxSize Nmesh comm np verbose dtype pmesh :
  dtype <> other_dtype ->
  new_ProcMesh
    (match np with
     | None => split_size_2d (comm_size (match comm with None => COMM_WORLD | Some c => c end))
     | Some n => n
     end) comm = Return pmesh ->
  exists m, __init__ BoxSize Nmesh comm np verbose dtype = Return m.
Proof.
  intros Hd Hp. unfold __init__.
  destruct dtype; try congruence; simpl; rewrite Hp; simpl; eexists; reflexivity.
Qed.

(** C8.  Whenever __init__ returns a mesh, every cell of its real view
    is zero and its snapshot stack is empty; and __init__ raises only
    for a dtype other than f8 and f4 (ValueError) or when the engine
    refuses the process mesh. *)
Theorem fresh_mesh_is_cleared BoxSize Nmesh comm np verbose dtype :
  match __init__ BoxSize Nmesh comm np verbose dtype with
  | Return (existT p self) =>
      (forall i, real self !!! i = 0) /\ real self = vreplicate _ 0 /\ stack self = []
  | Raise e =>
      (dtype = other_dtype /\ e = ValueError) \/
      new_ProcMesh
        (match np with
         | None => split_size_2d (comm_size (match comm with None => COMM_WORLD | Some c => c end))
         | Some n => n
         end) comm = Raise e
  end.
Proof.
  unfold __init__.
  destruct dtype; simpl; [| |now left].
  all: match goal with |- context [new_ProcMesh ?a ?b] =>
         destruct (new_ProcMesh a b) as [pm|e] eqn:E end; simpl; [|now right].
  all: unfold real; simpl; rewrite view_assign_input.
  all: split; [intros i; apply vlookup_replicate|split; reflexivity].
Qed.

(** ** C7: the coordinate transforms *)

(** The two transforms in exact arithmetic.  On a mesh whose box size
    is not zero, for every batch of position triplets x (the empty batch
    included) and every partition, transform0 and transform return;
    transform0(x) is transform(x) + local_i_start, cell by cell;
    transform0 is the map x * (Nmesh / BoxSize) and transform is that
    map shifted by -local_i_start. *)
Lemma transform_affine_exact {p} (self : ParticleMesh p) (x : list Position) :
  BoxSize self <> 0 ->
  exists g l,
    transform0 self x = Return g /\
    transform self x = Return l /\
    g = map (fun v : Position => vzip_with (fun c s => c + IZR s) v (local_i_start p)) l /\
    g = map (fun v : Position => vmap (fun c => c * (IZR (Nmesh self) / BoxSize self)) v) x /\
    l = map (fun v : Position =>
               vzip_with (fun c s => c * (IZR (Nmesh self) / BoxSize self) - IZR s)
                 v (local_i_start p)) x /\
    length g = length x /\ length l = length x.
Proof.
  intros HB. unfold transform0, transform, float_div.
  destruct (Req_EM_T (BoxSize self) 0) as [E|_]; [contradiction|]. simpl.
  eexists; eexists. split; [reflexivity|]. split; [reflexivity|].
  repeat split.
  - rewrite map_map. apply map_ext. intros v. apply vec_eq. intros i.
    rewrite vlookup_zip_with, vlookup_map, vlookup_zip_with. ring.
  - apply map_ext. intros v. apply vec_eq. intros i.
    rewrite !vlookup_map. field. exact HB.
  - apply map_ext. intros v. apply vec_eq. intros i.
    rewrite !vlookup_zip_with. field. exact HB.
  - apply length_map.
  - apply length_map.
Qed.

(** The two transforms as binary64 executes them: transform is
    transform0 followed by the subtraction of local_i_start, whatever
    the inputs, and both raise when one does. *)
Lemma transform_binary64_shift (p : Partition) (N : Z) (B : Binary64.float)
    (x : list (vec Binary64.float 3)) :
  transform_binary64 p N B x =
    obind (transform0_binary64 p N B x) (fun g =>
      Return (map (fun gi : vec Binary64.float 3 =>
                     vzip_with (fun c s => Binary64.sub c (Binary64.of_int s))
                       gi (local_i_start p)) g)).
Proof.
  unfold transform_binary64, transform0_binary64.
  destruct (Binary64.int_to_float N) as [n|e]; [|reflexivity]. cbv beta iota delta [obind].
  destruct (Binary64.truediv (Binary64.mul Binary64.one n) B) as [k|e]; [|reflexivity].
  cbv beta iota delta [obind]. f_equal. rewrite map_map. apply map_ext. intros xi.
  apply vec_eq. intros i.
  now rewrite !vlookup_zip_with, vlookup_map.
Qed.

(** C7, as the code has it.  For every batch of position triplets x
    (the empty batch included) and every partition (every rank):
    - in the binary64 arithmetic of the code, transform(x) is
      transform0(x) - local_i_start, cell by cell and bit for bit, and
      both raise together; when Nmesh converts to the float n and
      BoxSize is not zero, transform0(x) is the elementwise product of x
      with the float k = 1.0 * n / BoxSize and transform(x) is that
      product minus local_i_start;
    - in exact arithmetic, on a mesh whose box size is not zero,
      transform0(x) is also transform(x) + local_i_start, transform0 is
      x * (Nmesh / BoxSize) and transform is that map shifted by
      -local_i_start. *)
Theorem transform_shift_consistency {p} (self : ParticleMesh p) (x : list Position)
    (N : Z) (B : Binary64.float) (xf : list (vec Binary64.float 3)) :
  transform_binary64 p N B xf =
    obind (transform0_binary64 p N B xf) (fun g =>
      Return (map (fun gi : vec Binary64.float 3 =>
                     vzip_with (fun c s => Binary64.sub c (Binary64.of_int s))
                       gi (local_i_start p)) g)) /\
  (forall n : Binary64.float,
     Binary64.int_to_float N = Return n ->
     Binary64.eqb B (S754_zero false) = false ->
     transform0_binary64 p N B xf =
       Return (map (fun xi : vec Binary64.float 3 =>
                      vmap (fun c =>
                              Binary64.mul
                                (Binary64.div (Binary64.mul Binary64.one n) B) c) xi) xf) /\
     transform_binary64 p N B xf =
       Return (map (fun xi : vec Binary64.float 3 =>
                      vzip_with
                        (fun c s =>
                           Binary64.sub
                             (Binary64.mul
                                (Binary64.div (Binary64.mul Binary64.one n) B) c)
                             (Binary64.of_int s)) xi (local_i_start p)) xf)) /\
  (BoxSize self <> 0 ->
   exists g l,
     transform0 self x = Return g /\
     transform self x = Return l /\
     g = map (fun v : Position => vzip_with (fun c s => c + IZR s) v (local_i_start p)) l /\
     g = map (fun v : Position => vmap (fun c => c * (IZR (Nmesh self) / BoxSize self)) v) x /\
     l = map (fun v : Position =>
                vzip_with (fun c s => c * (IZR (Nmesh self) / BoxSize self) - IZR s)
                  v (local_i_start p)) x /\
     length g = length x /\ length l = length x).
Proof.
  split; [apply transform_binary64_shift|]. split.
  - intros n Hn HB. unfold transform_binary64, transform0_binary64, Binary64.truediv.
    rewrite Hn. cbv beta iota delta [obind]. rewrite HB. split; reflexivity.
  - apply transform_affine_exact.
Qed.

(** ** C5: the forward pipeline *)

Lemma set_buffer_set_buffer {p} (b b' : LocalBuffer p) (self : ParticleMesh p) :
  set_buffer b (set_buffer b' self) = set_buffer b self.
Proof. reflexivity. Qed.

Lemma float_max_ge_1 : 1 <= float_max.
Proof.
  unfold float_max.
  assert (H1 : 1 <= 2 ^ 1023) by (apply pow_R1_Rle; lra).
  assert (H2 : 0 < / 2 ^ 52 <= 1).
  { assert (H52 : 1 <= 2 ^ 52) by (apply pow_R1_Rle; lra).
    split; [apply Rinv_0_lt_compat; lra|].
    rewrite <- Rinv_1. apply Rinv_le_contravar; lra. }
  nra.
Qed.

Lemma finite_float_small (x : R) : Rabs x <= 1 -> finite_float x.
Proof. intros H. unfold finite_float. pose proof float_max_ge_1. lra. Qed.

Lemma normal_float_finite (x : R) : normal_float x -> finite_float x.
Proof. intros [_ H]. exact H. Qed.

Lemma normal_float_eighth_to_one (x : R) : / 8 <= Rabs x <= 1 -> normal_float x.
Proof.
  intros [Hlo Hhi]. split.
  - apply Rle_trans with (/ 8); [|exact Hlo].
    unfold float_min_normal. replace 8 with (2 ^ 3) by (simpl; lra).
    apply Rinv_le_contravar; [apply pow_lt; lra|].
    apply Rle_pow; [lra|lia].
  - pose proof float_max_ge_1. lra.
Qed.

(** The value of (1.0 / BoxSize) ** 3. *)
Lemma scale_factor_run (B : R) :
  B <> 0 -> finite_float (1 / B) -> finite_float ((1 / B) ^ 3) ->
  obind (float_div 1 B) (fun a => float_pow a 3) = Return ((1 / B) ^ 3).
Proof.
  intros HB H1 H3. unfold float_div, float_pow.
  destruct (Req_EM_T B 0) as [E|_]; [contradiction|]. cbv beta iota delta [obind].
  destruct (Rle_dec (Rabs (1 / B)) float_max) as [_|N]; [|contradiction].
  destruct (Rle_dec (Rabs ((1 / B) ^ 3)) float_max) as [_|N]; [reflexivity|contradiction].
Qed.

Lemma scale_factor_overflows (B : R) :
  B <> 0 -> finite_float (1 / B) -> ~ finite_float ((1 / B) ^ 3) ->
  obind (float_div 1 B) (fun a => float_pow a 3) = Raise OverflowError.
Proof.
  intros HB H1 H3. unfold float_div, float_pow.
  destruct (Req_EM_T B 0) as [E|_]; [contradiction|]. cbv beta iota delta [obind].
  destruct (Rle_dec (Rabs (1 / B)) float_max) as [_|N]; [|contradiction].
  destruct (Rle_dec (Rabs ((1 / B) ^ 3)) float_max) as [Y|_]; [contradiction|reflexivity].
Qed.

(** r2c() without positions, on a mesh whose box size is not zero and
    for which (1.0 / BoxSize) ** 3 is a finite float. *)
Lemma r2c_run {p} (self : ParticleMesh p) (mass : Mass) :
  BoxSize self <> 0 ->
  finite_float (1 / BoxSize self) ->
  finite_float ((1 / BoxSize self) ^ 3) ->
  r2c None mass self =
    (Return tt,
     set_buffer
       (execute (forward self)
          (assign_input (vmap (fun v => v * (1 / BoxSize self) ^ 3) (real self))
             (buffer self))) self).
Proof.
  intros HB H1 H3. unfold r2c, bind, ret, eval, gets, modify, report_sum.
  rewrite (scale_factor_run _ HB H1 H3).
  change (verbose (set_real (vmap (fun v => v * (1 / BoxSize self) ^ 3) (real self)) self))
    with (verbose self).
  destruct (verbose self); reflexivity.
Qed.

(** When (1.0 / BoxSize) ** 3 is beyond the finite floats, r2c() raises
    OverflowError before it writes anything. *)
Lemma r2c_overflows {p} (self : ParticleMesh p) (mass : Mass) :
  BoxSize self <> 0 ->
  finite_float (1 / BoxSize self) ->
  ~ finite_float ((1 / BoxSize self) ^ 3) ->
  r2c None mass self = (Raise OverflowError, self).
Proof.
  intros HB H1 H3. unfold r2c, bind, ret, eval.
  now rewrite (scale_factor_overflows _ HB H1 H3).
Qed.

(** r2c(pos, mass) with positions: the kernel paints onto the real view
    as clear() left it, and the scaling and the transform follow. *)
Lemma r2c_positions_run {p} (self : ParticleMesh p) (ps : list Position) (mass : Mass)
    (field : vec R (extent (local_ni p))) :
  BoxSize self <> 0 ->
  finite_float (1 / BoxSize self) ->
  finite_float ((1 / BoxSize self) ^ 3) ->
  cic_paint _ ps (real self) mass ignore (Nmesh self) (transform self) = (Return tt, field) ->
  r2c (Some ps) mass self =
    (Return tt,
     set_buffer
       (execute (forward self)
          (assign_input (vmap (fun v => v * (1 / BoxSize self) ^ 3) field)
             (assign_input field (buffer self)))) self).
Proof.
  intros HB H1 H3 Hpaint.
  assert (Hpre : (clear ;; paint ps mass) self = (Return tt, set_real field self)).
  { unfold bind. rewrite clear_run. unfold paint. now rewrite Hpaint. }
  unfold r2c. unfold bind at 1. rewrite Hpre.
  pose proof (r2c_run (set_real field self) mass HB H1 H3) as Hrest.
  unfold r2c in Hrest. unfold bind at 1 in Hrest. unfold ret at 1 in Hrest.
  rewrite Hrest. rewrite real_set_real. reflexivity.
Qed.

(** C5.  On a mesh whose box size is not zero and for which
    (1.0 / BoxSize) ** 3 is a normal float (neither the quotient nor its
    cube overflows or underflows), r2c() returns: it first
    rewrites the real view with its cells multiplied by (1/BoxSize)^3
    ([scaled]) and then executes the forward plan on that buffer
    ([once]).  A second r2c() multiplies the real view it finds by
    (1/BoxSize)^3 again before the second execution ([rescaled],
    [twice]): nothing records that the scaling was done.  When the
    forward plan has left the real data in place, the data fed to the
    second transform is the original data multiplied by (1/BoxSize)^3
    twice. *)
Theorem r2c_rescales {p} (self : ParticleMesh p) (mass : Mass) :
  BoxSize self <> 0 ->
  normal_float (1 / BoxSize self) ->
  normal_float ((1 / BoxSize self) ^ 3) ->
  let k := (1 / BoxSize self) ^ 3 in
  let scaled := set_real (vmap (fun v => v * k) (real self)) self in
  let once := set_buffer (execute (forward self) (buffer scaled)) scaled in
  let rescaled := set_real (vmap (fun v => v * k) (real once)) once in
  let twice := set_buffer (execute (forward self) (buffer rescaled)) rescaled in
  real scaled = vmap (fun v => v * k) (real self) /\
  r2c None mass self = (Return tt, once) /\
  real rescaled = vmap (fun v => v * k) (real once) /\
  (r2c None mass ;; r2c None mass) self = (Return tt, twice) /\
  (real once = real scaled -> real rescaled = vmap (fun v => v * k * k) (real self)).
Proof.
  intros HB H1 H3 k scaled once rescaled twice.
  apply normal_float_finite in H1. apply normal_float_finite in H3.
  assert (Hs : real scaled = vmap (fun v => v * k) (real self))
    by apply real_set_real.
  assert (Hr : real rescaled = vmap (fun v => v * k) (real once))
    by apply real_set_real.
  split; [exact Hs|]. split; [exact (r2c_run self mass HB H1 H3)|].
  split; [exact Hr|]. split.
  - unfold bind. rewrite (r2c_run self mass HB H1 H3).
    exact (r2c_run once mass HB H1 H3).
  - intros Hkeep. rewrite Hr, Hkeep, Hs.
    apply vec_eq. intros i. now rewrite !vlookup_map.
Qed.

(** ** C3: the wavenumber arrays *)

Lemma lookup_map {A B} (f : A -> B) (l : list A) (i : nat) (x : A) :
  l !! i = Some x -> map f l !! i = Some (f x).
Proof.
  revert i. induction l as [|y l IH]; intros [|i]; simpl; try discriminate.
  - now intros [= ->].
  - apply IH.
Qed.

Lemma lookup_arange (n i : nat) : (i < n)%nat -> arange n !! i = Some (INR i).
Proof.
  intros Hi. unfold arange. apply lookup_map.
  now rewrite lookup_seq_lt.
Qed.

(** The in-place fold [wi[wi >= Nmesh // 2] -= Nmesh] on the cell of
    index [i] of an array that starts at offset [o]. *)
Lemma fold_cell (N o : Z) (i : nat) :
  (if Rge_dec (INR i + IZR o) (IZR (N `div` 2))
   then INR i + IZR o - IZR N else INR i + IZR o)
  = IZR (folded_frequency N (Z.of_nat i + o)).
Proof.
  rewrite INR_IZR_INZ, <- plus_IZR. unfold folded_frequency.
  destruct (Z.ltb_spec (Z.of_nat i + o) (N `div` 2)) as [Hlt|Hge];
    destruct (Rge_dec (IZR (Z.of_nat i + o)) (IZR (N `div` 2))) as [Hr|Hr].
  - apply IZR_lt in Hlt. lra.
  - reflexivity.
  - now rewrite minus_IZR.
  - apply IZR_le in Hge. lra.
Qed.

Example folded_frequency_8_5 : folded_frequency 8 5 = (-3)%Z.
Proof. reflexivity. Qed.

Example folded_frequency_8_3 : folded_frequency 8 3 = 3%Z.
Proof. reflexivity. Qed.

Example folded_frequency_8_4 : folded_frequency 8 4 = (-4)%Z.
Proof. reflexivity. Qed.

(** On a mesh with an odd number of points the boundary is the integer
    quotient: the index (N-1)/2 is already folded. *)
Example folded_frequency_7_3 : folded_frequency 7 3 = (-4)%Z.
Proof. reflexivity. Qed.

(** For an even number of points the integer quotient and the exact half
    give the same boundary. *)
Lemma fold_boundary_even (N k : Z) :
  Z.even N = true -> ((k <? N `div` 2) = true <-> 2 * k < N)%Z.
Proof.
  intros He. apply Zeven_bool_iff, Zeven_div2 in He.
  rewrite Z.div2_div in He. rewrite Z.ltb_lt. lia.
Qed.

(** One pass of the loop, on a mesh whose Nmesh is not zero. *)
Lemma kvector_run {p} (self : ParticleMesh p) (d : fin 3) :
  Nmesh self <> 0%Z ->
  kvector self d =
    Return
      {| shape := vinsert d (local_no p !!! d) (vreplicate 3 1%nat);
         data :=
           map (fun v => v * (2 * PI / IZR (Nmesh self)))
             (map (fun v => if Rge_dec v (IZR (Nmesh self `div` 2))
                            then v - IZR (Nmesh self) else v)
                (map (fun v => v + IZR (local_o_start p !!! d))
                   (arange (local_no p !!! d)))) |}.
Proof.
  intros HN. unfold kvector, float_div, reshape, Ndim.
  destruct (Req_EM_T (IZR (Nmesh self)) 0) as [E|_].
  - apply eq_IZR_R0 in E. contradiction.
  - simpl. now rewrite vlookup_insert.
Qed.

(** C3, as the code has it.  On a mesh whose Nmesh is not zero, the
    list w that transfer builds has one array per axis.  The array of axis d has the local
    transposed complex extent local_no[d] along axis d and size 1 along
    the other two axes, holds local_no[d] cells, and its cell of local
    index i, with o = local_o_start[d], is (i+o) * (2 pi / Nmesh) when
    i+o < Nmesh/2 and ((i+o) - Nmesh) * (2 pi / Nmesh) otherwise, where
    Nmesh/2 is the integer quotient. *)
Theorem kvector_entries {p} (self : ParticleMesh p) (d : fin 3) :
  Nmesh self <> 0%Z ->
  exists w wd,
    kvectors self = Return w /\
    length w = 3%nat /\
    w !! fin_to_nat d = Some wd /\
    shape wd !!! d = local_no p !!! d /\
    (forall d', d' <> d -> shape wd !!! d' = 1%nat) /\
    length (data wd) = local_no p !!! d /\
    forall i : nat, (i < local_no p !!! d)%nat ->
      data wd !! i =
        Some (IZR (if (Z.of_nat i + local_o_start p !!! d <? Nmesh self `div` 2)%Z
                   then Z.of_nat i + local_o_start p !!! d
                   else Z.of_nat i + local_o_start p !!! d - Nmesh self)
              * (2 * PI / IZR (Nmesh self))).
Proof.
  intros HN. unfold kvectors, axes. simpl.
  rewrite !kvector_run by exact HN. simpl.
  eexists.
  exists {| shape := vinsert d (local_no p !!! d) (vreplicate 3 1%nat);
            data :=
              map (fun v => v * (2 * PI / IZR (Nmesh self)))
                (map (fun v => if Rge_dec v (IZR (Nmesh self `div` 2))
                               then v - IZR (Nmesh self) else v)
                   (map (fun v => v + IZR (local_o_start p !!! d))
                      (arange (local_no p !!! d)))) |}.
  split; [reflexivity|]. split; [reflexivity|].
  split.
  - inv_fin d; [reflexivity|]. intros d. inv_fin d; [reflexivity|].
    intros d. inv_fin d; [reflexivity|]. intros d. inv_fin d.
  - split; [|split; [|split]].
    + simpl. apply vlookup_insert.
    + intros d' Hd. simpl. rewrite vlookup_insert_ne by congruence.
      exact (vlookup_replicate 3 1%nat d').
    + simpl. rewrite !length_map. unfold arange. now rewrite length_map, length_seq.
    + intros i Hi. simpl.
      apply (lookup_map (fun v => v * (2 * PI / IZR (Nmesh self)))).
      change (IZR (if (Z.of_nat i + local_o_start p !!! d <? Nmesh self `div` 2)%Z
                   then (Z.of_nat i + local_o_start p !!! d)%Z
                   else (Z.of_nat i + local_o_start p !!! d - Nmesh self)%Z))
        with (IZR (folded_frequency (Nmesh self) (Z.of_nat i + local_o_start p !!! d))).
      rewrite <- fold_cell.
      apply (lookup_map (fun v => if Rge_dec v (IZR (Nmesh self `div` 2))
                                  then v - IZR (Nmesh self) else v)).
      apply (lookup_map (fun v => v + IZR (local_o_start p !!! d))).
      now apply lookup_arange.
Qed.

(** ** C2 and C4: the backward pipeline *)

Lemma kvectors_return {p} (self : ParticleMesh p) :
  Nmesh self <> 0%Z -> exists w, kvectors self = Return w.
Proof.
  intros HN. unfold kvectors, axes. simpl.
  rewrite !kvector_run by exact HN. simpl. eexists; reflexivity.
Qed.

(** The k-vectors read the geometry only. *)
Lemma kvectors_frame {p} (self self' : ParticleMesh p) :
  Nmesh self' = Nmesh self -> kvectors self' = kvectors self.
Proof.
  intros E. unfold kvectors, kvector. now rewrite E.
Qed.

(** The loop over the chain writes the buffer only, and leaves in the
    complex view the field that the chain computes. *)
Lemma chain_run {p} (chain : list (TransferFunction p)) (w : list NDArray)
    (self : ParticleMesh p) :
  exists b,
    for_each chain
      (fun transfer =>
         modify (fun self => set_complex (transfer (comm self) (complex self) w) self))
      self = (Return tt, set_buffer b self) /\
    view_output b = apply_chain chain (comm self) w (complex self).
Proof.
  revert self. induction chain as [|tf chain IH]; intros self.
  - exists (buffer self). split; [now destruct self|reflexivity].
  - simpl. unfold bind, modify at 1.
    destruct (IH (set_complex (tf (comm self) (complex self) w) self)) as (b & Hrun & Hb).
    exists b. split.
    + rewrite Hrun. reflexivity.
    + rewrite Hb, complex_set_complex. reflexivity.
Qed.

Lemma transfer_run {p} (chain : list (TransferFunction p)) (self : ParticleMesh p) :
  Nmesh self <> 0%Z ->
  exists w b,
    kvectors self = Return w /\
    transfer chain self = (Return tt, set_buffer b self) /\
    view_output b = apply_chain chain (comm self) w (complex self).
Proof.
  intros HN. destruct (kvectors_return self HN) as [w Hw].
  destruct (chain_run chain w self) as (b & Hrun & Hb).
  exists w, b. split; [exact Hw|]. split; [|exact Hb].
  unfold transfer, bind, eval. rewrite Hw. exact Hrun.
Qed.

(** c2r step by step, on a mesh whose Nmesh is not zero: [b] is the
    buffer once the snapshot is pushed and the chain applied. *)
Lemma c2r_run {p} (chain : list (TransferFunction p)) (self : ParticleMesh p) :
  Nmesh self <> 0%Z ->
  exists w b,
    kvectors self = Return w /\
    (push ;; transfer chain) self =
      (Return tt, set_buffer b (set_stack (stack self ++ [complex self]) self)) /\
    view_output b = apply_chain chain (comm self) w (complex self) /\
    c2r chain self =
      (Return tt,
       set_buffer (assign_output (complex self) (execute (backward self) b)) self).
Proof.
  intros HN.
  set (pushed := set_stack (stack self ++ [complex self]) self).
  destruct (transfer_run chain pushed HN) as (w & b & Hw & Hrun & Hb).
  exists w, b. split; [|split; [|split]].
  - rewrite <- Hw. symmetry. now apply kvectors_frame.
  - unfold bind. rewrite push_run. fold pushed. now rewrite Hrun.
  - exact Hb.
  - unfold c2r, bind. rewrite push_run. fold pushed. rewrite Hrun.
    unfold modify at 1, gets, report_sum, ret.
    change (verbose (set_buffer (execute (backward (set_buffer b pushed))
                                   (buffer (set_buffer b pushed)))
                       (set_buffer b pushed)))
      with (verbose self).
    assert (Hpop : forall b' : LocalBuffer p,
               pop (set_buffer b' pushed) =
               (Return tt, set_buffer (assign_output (complex self) b') self)).
    { intros b'.
      rewrite (pop_run_snoc _ (complex self) (stack self)) by reflexivity.
      now destruct self. }
    destruct (verbose self); apply Hpop.
Qed.

(** X19.  With Nmesh = 0 the k-vectors cannot be built: c2r raises
    ZeroDivisionError after the push, and the snapshot stays on the
    stack, one entry deeper than before the call. *)
Lemma c2r_zero_mesh {p} (chain : list (TransferFunction p)) (self : ParticleMesh p) :
  Nmesh self = 0%Z ->
  c2r chain self =
    (Raise ZeroDivisionError, set_stack (stack self ++ [complex self]) self).
Proof.
  intros HN. unfold c2r, bind. rewrite push_run.
  unfold transfer, bind, eval, kvectors, axes. simpl.
  unfold kvector at 1, float_div. simpl. rewrite HN.
  destruct (Req_EM_T (IZR 0) 0) as [_|E]; [reflexivity|].
  now contradiction E.
Qed.

(** C2.  On a mesh whose Nmesh is not zero, for every chain of transfer
    functions (the empty chain included), c2r(chain) returns, and the
    object it leaves is the one reached by: push; the chain applied to
    the complex view in the order given; the backward plan executed on
    that buffer; pop.  After the call the complex view is the one before
    the call and the snapshot stack is the one before the call, so its
    depth is unchanged. *)
Theorem c2r_restores_complex {p} (chain : list (TransferFunction p))
    (self : ParticleMesh p) :
  Nmesh self <> 0%Z ->
  exists w b self',
    kvectors self = Return w /\
    (push ;; transfer chain) self =
      (Return tt, set_buffer b (set_stack (stack self ++ [complex self]) self)) /\
    view_output b = apply_chain chain (comm self) w (complex self) /\
    c2r chain self = (Return tt, self') /\
    buffer self' = assign_output (complex self) (execute (backward self) b) /\
    complex self' = complex self /\
    stack self' = stack self /\
    length (stack self') = length (stack self).
Proof.
  intros HN. destruct (c2r_run chain self HN) as (w & b & Hw & Hpt & Hb & Hrun).
  exists w, b,
    (set_buffer (assign_output (complex self) (execute (backward self) b)) self).
  repeat split; try assumption.
  unfold complex at 1. simpl. apply view_assign_output.
Qed.

(** C4, as the code has it.  No attribute records whether r2c has run.
    On a mesh that __init__ has just returned, with Nmesh not zero,
    c2r(chain) raises nothing: it returns, for every chain, with the
    complex view and the stack of the fresh mesh. *)
Theorem c2r_on_fresh_mesh_returns BoxSize Nmesh comm np verbose dtype :
  Nmesh <> 0%Z ->
  match __init__ BoxSize Nmesh comm np verbose dtype with
  | Return (existT p self) =>
      forall chain : list (TransferFunction p),
        fst (c2r chain self) = Return tt /\
        complex (snd (c2r chain self)) = complex self /\
        stack (snd (c2r chain self)) = []
  | Raise _ => True
  end.
Proof.
  intros HN.
  unfold __init__.
  destruct dtype; simpl; [| |exact I].
  all: match goal with |- context [new_ProcMesh ?a ?b] =>
         destruct (new_ProcMesh a b) as [pm|e] end; simpl; [|exact I].
  all: intros chain.
  all: match goal with |- context [c2r ?c ?m] =>
         destruct (c2r_run c m HN) as (w & b & _ & _ & _ & Hrun);
         rewrite Hrun; simpl
       end.
  all: split; [reflexivity|]; split; [|reflexivity].
  all: unfold complex at 1; simpl; apply view_assign_output.
Qed.

End Properties.

(** ** C1: clear on a painted mesh *)

(** C1, at the mesh [painted_mesh].  clear() returns and leaves the
    object as it was: every cell of the real view still holds 1.0
    afterwards, so the real view is not zero. *)
Theorem clear_leaves_painted_mesh :
  clear painted_mesh = (Return tt, painted_mesh) /\
  (forall i, real (snd (clear painted_mesh)) !!! i = 1) /\
  real (snd (clear painted_mesh)) <> vreplicate _ 0.
Proof.
  split; [reflexivity|].
  assert (H : forall i, real (snd (clear painted_mesh)) !!! i = 1).
  { intros i. unfold real, clear, ret. simpl.
    unfold arena_view_input. now rewrite lookup_fun_to_vec. }
  split; [exact H|].
  intros E.
  assert (H0 := H 0%fin). rewrite E, vlookup_replicate in H0. lra.
Qed.

(** * The theorems at concrete meshes *)

#[local] Existing Instance null_kernel.

Lemma push_pop_restores_witness :
  exists self',
    (push ;; pop)%method painted_mesh = (Return tt, self') /\
    complex self' = complex painted_mesh /\
    stack self' = [].
Proof.
  destruct (push_pop_restores painted_mesh) as (self' & Hrun & _ & Hc & Hs & _).
  exists self'. split; [exact Hrun|]. split; [exact Hc|exact Hs].
Defined.

Lemma c2r_restores_complex_witness :
  Nmesh painted_mesh <> 0%Z /\
  fst (c2r [quarter_turn _] painted_mesh) = Return tt /\
  complex (snd (c2r [quarter_turn _] painted_mesh)) = complex painted_mesh /\
  stack (snd (c2r [quarter_turn _] painted_mesh)) = [].
Proof.
  assert (HN : Nmesh painted_mesh <> 0%Z) by (simpl; lia).
  split; [exact HN|].
  destruct (c2r_restores_complex [quarter_turn _] painted_mesh HN)
    as (w & b & self' & _ & _ & _ & Hrun & _ & Hc & Hs & _).
  rewrite Hrun. simpl. split; [reflexivity|]. split; [exact Hc|exact Hs].
Defined.

Lemma kvector_entries_witness :
  Nmesh mesh8 <> 0%Z /\
  Nmesh mesh7 <> 0%Z /\
  (exists w wd,
     kvectors mesh8 = Return w /\
     w !! 0%nat = Some wd /\
     length (data wd) = 8%nat /\
     data wd !! 5%nat = Some (IZR (-3) * (2 * PI / IZR 8)) /\
     data wd !! 3%nat = Some (IZR 3 * (2 * PI / IZR 8))) /\
  (exists w wd,
     kvectors mesh7 = Return w /\
     w !! 0%nat = Some wd /\
     length (data wd) = 7%nat /\
     data wd !! 2%nat = Some (IZR 2 * (2 * PI / IZR 7)) /\
     data wd !! 3%nat = Some (IZR (-4) * (2 * PI / IZR 7))).
Proof.
  assert (HN8 : Nmesh mesh8 <> 0%Z) by (simpl; lia).
  assert (HN7 : Nmesh mesh7 <> 0%Z) by (simpl; lia).
  split; [exact HN8|]. split; [exact HN7|]. split.
  - destruct (kvector_entries mesh8 0%fin HN8)
      as (w & wd & Hw & _ & Hl & _ & _ & Hlen & Hcell).
    exists w, wd. split; [exact Hw|]. split; [exact Hl|]. split; [exact Hlen|].
    split.
    + apply (Hcell 5%nat). simpl. lia.
    + apply (Hcell 3%nat). simpl. lia.
  - destruct (kvector_entries mesh7 0%fin HN7)
      as (w & wd & Hw & _ & Hl & _ & _ & Hlen & Hcell).
    exists w, wd. split; [exact Hw|]. split; [exact Hl|]. split; [exact Hlen|].
    split.
    + apply (Hcell 2%nat). simpl. lia.
    + apply (Hcell 3%nat). simpl. lia.
Defined.

Lemma r2c_rescales_witness :
  BoxSize dense_mesh <> 0 /\
  normal_float (1 / BoxSize dense_mesh) /\
  normal_float ((1 / BoxSize dense_mesh) ^ 3) /\
  fst (r2c None (scalar 1) dense_mesh) = Return tt /\
  (forall i, real dense_mesh !!! i = 8) /\
  (forall i, real (snd (r2c None (scalar 1) dense_mesh)) !!! i = 1) /\
  fst ((r2c None (scalar 1) ;; r2c None (scalar 1))%method dense_mesh) = Return tt /\
  (forall i,
     real (snd ((r2c None (scalar 1) ;; r2c None (scalar 1))%method dense_mesh)) !!! i
     = / 8).
Proof.
  assert (HB : BoxSize dense_mesh <> 0) by (simpl; lra).
  assert (H1 : normal_float (1 / BoxSize dense_mesh)).
  { apply normal_float_eighth_to_one. simpl. rewrite Rabs_pos_eq; lra. }
  assert (H3 : normal_float ((1 / BoxSize dense_mesh) ^ 3)).
  { apply normal_float_eighth_to_one. simpl. rewrite Rabs_pos_eq; lra. }
  split; [exact HB|]. split; [exact H1|]. split; [exact H3|].
  pose proof (r2c_rescales dense_mesh (scalar 1) HB H1 H3) as H.
  set (k := (1 / BoxSize dense_mesh) ^ 3) in H.
  set (scaled := set_real (vmap (fun v => v * k) (real dense_mesh)) dense_mesh) in H.
  set (once := set_buffer (execute (forward dense_mesh) (buffer scaled)) scaled) in H.
  set (rescaled := set_real (vmap (fun v => v * k) (real once)) once) in H.
  set (twice := set_buffer (execute (forward dense_mesh) (buffer rescaled)) rescaled) in H.
  destruct H as (Hs & Hr1 & _ & Hr2 & Hk).
  assert (H8 : forall i, real dense_mesh !!! i = 8).
  { intros i. unfold real. simpl. unfold arena_view_input.
    now rewrite lookup_fun_to_vec. }
  rewrite Hr1, Hr2. cbn [fst snd].
  split; [reflexivity|]. split; [exact H8|]. split.
  - intros i. change (real once !!! i = 1).
    assert (E : real once = vmap (fun v => v * k) (real dense_mesh)) by exact Hs.
    rewrite E, vlookup_map, H8. unfold k. simpl. lra.
  - split; [reflexivity|]. intros i. change (real twice !!! i = / 8).
    assert (E : real twice = vmap (fun v => v * k * k) (real dense_mesh))
      by exact (Hk eq_refl).
    rewrite E, vlookup_map, H8. unfold k. simpl. lra.
Defined.

Lemma transform_shift_consistency_witness :
  Binary64.int_to_float 128 = Return (Binary64.of_int 128) /\
  Binary64.eqb Binary64.one (S754_zero false) = false /\
  BoxSize second_half_mesh <> 0 /\
  transform_binary64 second_half_of_128 128 Binary64.one
    [[# x_00234375; Binary64.of_int 0; Binary64.of_int 0]]
  = Return [[# S754_finite true 8964978008234394 (-47);
               S754_zero false; S754_zero false]] /\
  transform0_binary64 second_half_of_128 128 Binary64.one
    [[# x_00234375; Binary64.of_int 0; Binary64.of_int 0]]
  = Return [[# S754_finite false 5404319552844595 (-54);
               S754_zero false; S754_zero false]] /\
    (exists g l,
     transform0 second_half_mesh [[# 3 / 5; 1 / 4; 1 / 2]] = Return g /\
     transform second_half_mesh [[# 3 / 5; 1 / 4; 1 / 2]] = Return l /\
     g = map (fun v : Position => vzip_with (fun c s => c + IZR s) v [# 64%Z; 0%Z; 0%Z]) l /\
     length g = 1%nat).
Proof.
  assert (Hn : Binary64.int_to_float 128 = Return (Binary64.of_int 128))
    by (vm_compute; reflexivity).
  assert (Hz : Binary64.eqb Binary64.one (S754_zero false) = false)
    by (vm_compute; reflexivity).
  assert (HB : BoxSize second_half_mesh <> 0) by (simpl; lra).
  split; [exact Hn|]. split; [exact Hz|]. split; [exact HB|].
  destruct (transform_shift_consistency second_half_mesh [[# 3 / 5; 1 / 4; 1 / 2]]
              128 Binary64.one [[# x_00234375; Binary64.of_int 0; Binary64.of_int 0]])
    as (Hshift & Hrun & Hexact).
  destruct (Hrun _ Hn Hz) as [H0 Hl].
  assert (H0' : transform0_binary64 second_half_of_128 128 Binary64.one
                  [[# x_00234375; Binary64.of_int 0; Binary64.of_int 0]]
                = Return [[# S754_finite false 5404319552844595 (-54);
                             S754_zero false; S754_zero false]])
    by (rewrite H0; vm_compute; reflexivity).
  split.
  - rewrite Hshift, H0'. vm_compute. reflexivity.
  - split; [exact H0'|].
    destruct (Hexact HB) as (g & l & Hg & Hl' & Hgl & _ & _ & Hlen & _).
    exists g, l. split; [exact Hg|]. split; [exact Hl'|]. split; [exact Hgl|exact Hlen].
Defined.

(** C4, as the claim states it, fails on the mesh that
    __init__(BoxSize=1.0, Nmesh=2) returns: r2c has never run on it,
    and c2r([]) returns instead of raising. *)
Lemma c2r_before_r2c_returns :
  __init__ (engine := one_rank) 1 2%Z None None false f8
    = Return (existT (one_rank_partition [2%Z; 2%Z; 2%Z]) fresh_mesh) /\
  fst (c2r [] fresh_mesh) = Return tt /\
  ~ (exists e, fst (c2r [] fresh_mesh) = Raise e).
Proof.
  assert (HN : Nmesh fresh_mesh <> 0%Z) by (simpl; lia).
  destruct (c2r_run [] fresh_mesh HN) as (w & b & _ & _ & _ & Hrun).
  split; [reflexivity|]. rewrite Hrun. simpl. split; [reflexivity|].
  intros [e He]. discriminate.
Qed.

Lemma c2r_on_fresh_mesh_returns_witness :
  (2 <> 0)%Z /\
  forall chain : list (@TransferFunction one_rank (one_rank_partition [2%Z; 2%Z; 2%Z])),
    fst (c2r chain fresh_mesh) = Return tt /\
    complex (snd (c2r chain fresh_mesh)) = complex fresh_mesh /\
    stack (snd (c2r chain fresh_mesh)) = [].
Proof.
  assert (HN : (2 <> 0)%Z) by lia.
  split; [exact HN|].
  exact (c2r_on_fresh_mesh_returns (engine := one_rank) 1 2%Z None None false f8 HN).
Defined.

(** * Further properties of the methods *)

Section Composition.

Context `{engine : PFFT} `{kernel : CIC}.

Local Open Scope method_scope.

(** ** Sequencing *)

Lemma bind_assoc {St A B C} (m : M St A) (k : A -> M St B) (h : B -> M St C) (s : St) :
  bind (bind m k) h s = bind m (fun a => bind (k a) h) s.
Proof.
  unfold bind. destruct (m s) as [[a|e] s']; [|reflexivity].
  destruct (k a s') as [[b|e] s'']; reflexivity.
Qed.

Lemma bind_ext {St A B} (m : M St A) (k k' : A -> M St B) (s : St) :
  (forall a s', k a s' = k' a s') -> bind m k s = bind m k' s.
Proof.
  intros Hk. unfold bind. destruct (m s) as [[a|e] s']; [apply Hk|reflexivity].
Qed.

Lemma for_each_app {St A} (l1 l2 : list A) (body : A -> M St unit) (s : St) :
  for_each (l1 ++ l2) body s = (for_each l1 body ;; for_each l2 body) s.
Proof.
  revert s. induction l1 as [|x l1 IH]; intros s; simpl.
  - reflexivity.
  - rewrite bind_assoc. apply bind_ext. intros _ s'. apply IH.
Qed.

(** ** transfer *)

Lemma transfer_unfold {p} (chain : list (TransferFunction p)) (self : ParticleMesh p) :
  transfer chain self =
    match kvectors self with
    | Return w =>
        for_each chain
          (fun transfer =>
             modify (fun self => set_complex (transfer (comm self) (complex self) w) self))
          self
    | Raise e => (Raise e, self)
    end.
Proof. reflexivity. Qed.

Lemma bind_unfold {St A B} (m : M St A) (k : A -> M St B) (s : St) :
  bind m k s =
    match m s with
    | (Return a, s') => k a s'
    | (Raise e, s') => (Raise e, s')
    end.
Proof. reflexivity. Qed.

(** X1.  Applying the chain c1 ++ c2 is applying c1 and then c2, on
    every mesh: transfer(c1 + c2) leaves the same object and the same
    outcome as transfer(c1) followed by transfer(c2). *)
Theorem transfer_app {p} (c1 c2 : list (TransferFunction p)) (self : ParticleMesh p) :
  transfer (c1 ++ c2) self = (transfer c1 ;; transfer c2) self.
Proof.
  rewrite bind_unfold, !transfer_unfold.
  destruct (kvectors self) as [w|e] eqn:Hw; [|reflexivity].
  rewrite for_each_app, bind_unfold.
  destruct (chain_run c1 w self) as (b & Hrun & _). rewrite Hrun.
  rewrite transfer_unfold.
  rewrite (kvectors_frame self (set_buffer b self) eq_refl), Hw.
  reflexivity.
Qed.

(** X2.  The k-vectors are built before the loop over the chain.  On a
    mesh whose Nmesh is zero, transfer raises ZeroDivisionError for
    every chain, the empty one included, and calls no transfer function:
    the object is left as it was.  On any other mesh transfer returns,
    and with the empty chain it leaves the object as it was. *)
Theorem transfer_outcome {p} (chain : list (TransferFunction p)) (self : ParticleMesh p) :
  fst (transfer chain self)
    = (if decide (Nmesh self = 0%Z) then Raise ZeroDivisionError else Return tt) /\
  (Nmesh self = 0%Z \/ chain = [] -> snd (transfer chain self) = self).
Proof.
  destruct (decide (Nmesh self = 0%Z)) as [HN|HN].
  - assert (Hk : kvectors self = Raise ZeroDivisionError).
    { unfold kvectors, axes. simpl. unfold kvector at 1, float_div. rewrite HN.
      destruct (Req_EM_T (IZR 0) 0) as [_|E]; [reflexivity|now contradiction E]. }
    unfold transfer, bind, eval. rewrite Hk. simpl. split; [reflexivity|now intros _].
  - destruct (transfer_run chain self HN) as (w & b & Hw & Hrun & _).
    rewrite Hrun. simpl. split; [reflexivity|].
    intros [H0| ->]; [contradiction|].
    rewrite transfer_unfold, Hw in Hrun. simpl in Hrun.
    unfold ret in Hrun. now injection Hrun as <-.
Qed.

(** ** What the pipeline methods write *)

Lemma set_buffer_buffer {p} (self : ParticleMesh p) : set_buffer (buffer self) self = self.
Proof. now destruct self. Qed.

Lemma wbo_ret {p A} (a : A) : writes_buffer_only (p := p) (ret a).
Proof. intros self. exists (buffer self). simpl. now rewrite set_buffer_buffer. Qed.

Lemma wbo_eval {p A} (f : ParticleMesh p -> Outcome A) : writes_buffer_only (eval f).
Proof. intros self. exists (buffer self). simpl. now rewrite set_buffer_buffer. Qed.

Lemma wbo_gets {p A} (f : ParticleMesh p -> A) : writes_buffer_only (gets f).
Proof. intros self. exists (buffer self). simpl. now rewrite set_buffer_buffer. Qed.

Lemma wbo_modify {p} (f : ParticleMesh p -> LocalBuffer p) :
  writes_buffer_only (modify (fun self => set_buffer (f self) self)).
Proof. intros self. exists (f self). reflexivity. Qed.

Lemma wbo_bind {p A B} (m : M (ParticleMesh p) A) (k : A -> M (ParticleMesh p) B) :
  writes_buffer_only m -> (forall a, writes_buffer_only (k a)) ->
  writes_buffer_only (bind m k).
Proof.
  intros Hm Hk self. destruct (Hm self) as [b Hb]. unfold bind.
  destruct (m self) as [[a|e] s']; simpl in Hb; subst s'.
  - destruct (Hk a (set_buffer b self)) as [b' Hb']. exists b'. exact Hb'.
  - exists b. reflexivity.
Qed.

Lemma wbo_for_each {p A} (l : list A) (body : A -> M (ParticleMesh p) unit) :
  (forall x, writes_buffer_only (body x)) -> writes_buffer_only (for_each l body).
Proof.
  intros Hb. induction l as [|x l IH]; simpl.
  - apply wbo_ret.
  - apply wbo_bind; [apply Hb|intros _; exact IH].
Qed.

Lemma wbo_clear {p} : writes_buffer_only (p := p) clear.
Proof. apply wbo_ret. Qed.

Lemma wbo_paint {p} pos mass : writes_buffer_only (p := p) (paint pos mass).
Proof.
  intros self. unfold paint.
  destruct (cic_paint _ pos (real self) mass ignore (Nmesh self) (transform self))
    as [r field].
  eexists. reflexivity.
Qed.

Lemma wbo_r2c {p} pos mass : writes_buffer_only (p := p) (r2c pos mass).
Proof.
  unfold r2c. apply wbo_bind.
  - destruct pos; [|apply wbo_ret].
    apply wbo_bind; [apply wbo_clear|intros _; apply wbo_paint].
  - intros _. apply wbo_bind; [apply wbo_eval|]. intros k.
    apply wbo_bind; [apply (wbo_modify (fun self => assign_input _ (buffer self)))|].
    intros _. apply wbo_bind; [apply wbo_gets|]. intros v.
    apply wbo_bind; [destruct v; apply wbo_ret|]. intros _.
    apply (wbo_modify (fun self => execute (forward self) (buffer self))).
Qed.

Lemma wbo_transfer {p} (chain : list (TransferFunction p)) :
  writes_buffer_only (transfer chain).
Proof.
  unfold transfer. apply wbo_bind; [apply wbo_eval|]. intros w.
  apply wbo_for_each. intros tf.
  apply (wbo_modify (fun self => assign_output (tf (comm self) (complex self) w) (buffer self))).
Qed.

Lemma wbo_readout {p} pos : writes_buffer_only (p := p) (readout pos).
Proof.
  unfold readout. destruct pos; [|apply wbo_ret].
  apply wbo_bind; [apply wbo_eval|intros rt; apply wbo_ret].
Qed.

(** X3.  On a mesh whose Nmesh is not zero, with transfer functions and
    plans that return (the transfer functions and the plans of this
    embedding do not raise), a script of calls to clear, paint, r2c,
    transfer, readout and c2r, in any order, writes to the buffer at
    most, whether it runs to its end or stops at a call in which the
    kernel or a float operation raises: the snapshot stack (hence its
    depth) and the geometry are the ones before the script. *)
Theorem script_keeps_stack {p} (calls : list (Call p)) (self : ParticleMesh p) :
  Nmesh self <> 0%Z ->
  exists b,
    snd (script calls self) = set_buffer b self /\
    stack (snd (script calls self)) = stack self /\
    Nmesh (snd (script calls self)) = Nmesh self /\
    BoxSize (snd (script calls self)) = BoxSize self.
Proof.
  intros HN.
  assert (H1 : forall (c : Call p) (s : ParticleMesh p),
             Nmesh s <> 0%Z -> exists b, snd (perform c s) = set_buffer b s).
  { intros c s Hs. destruct c; simpl.
    - apply wbo_clear.
    - apply wbo_paint.
    - apply wbo_r2c.
    - apply wbo_transfer.
    - apply (wbo_bind (readout pos) (fun _ => ret tt));
        [apply wbo_readout|intros _; apply wbo_ret].
    - destruct (c2r_run transfer_functions s Hs) as (w & b & _ & _ & _ & Hrun).
      rewrite Hrun. eexists. reflexivity. }
  assert (H2 : exists b, snd (script calls self) = set_buffer b self).
  { unfold script. revert self HN. induction calls as [|c calls IH]; intros self HN.
    - exists (buffer self). simpl. now rewrite set_buffer_buffer.
    - simpl. unfold bind. destruct (H1 c self HN) as [b Hb].
      destruct (perform c self) as [[[]|e] s']; simpl in Hb; subst s'.
      + destruct (IH (set_buffer b self) HN) as [b' Hb']. exists b'. exact Hb'.
      + exists b. reflexivity. }
  destruct H2 as [b Hb]. exists b. rewrite Hb. repeat split.
Qed.

End Composition.

Section Snapshots.

Context `{engine : PFFT} `{kernel : CIC}.

Local Open Scope method_scope.

(** n calls to push: n copies of the complex view on top of the stack. *)
Lemma pushes_run {p} (n : nat) (self : ParticleMesh p) :
  times n push self =
    (Return tt, set_stack (stack self ++ repeat (complex self) n) self).
Proof.
  revert self. induction n as [|n IH]; intros self; simpl.
  - rewrite app_nil_r. unfold ret. now rewrite set_stack_stack.
  - rewrite bind_unfold, push_run, IH. simpl.
    change (complex (set_stack (stack self ++ [complex self]) self)) with (complex self).
    rewrite <- app_assoc. reflexivity.
Qed.

(** As many calls to pop as there are entries above [rest]. *)
Lemma pops_run {p} (rest : list (vec Cnum (extent (local_no p)))) v l
    (self : ParticleMesh p) :
  stack self = rest ++ v :: l ->
  exists b,
    times (S (length l)) pop self = (Return tt, set_stack rest (set_buffer b self)) /\
    view_output b = v.
Proof.
  revert self. induction l as [|x l IH] using rev_ind; intros self E.
  - simpl. rewrite bind_unfold, (pop_run_snoc self v rest E).
    exists (assign_output v (buffer self)). split; [reflexivity|apply view_assign_output].
  - rewrite length_app, Nat.add_1_r.
    change (times (S (S (length l))) pop self)
      with ((pop ;; times (S (length l)) pop) self).
    rewrite bind_unfold.
    rewrite (pop_run_snoc self x (rest ++ v :: l))
      by (rewrite E, <- app_assoc; reflexivity).
    destruct (IH (set_complex x (set_stack (rest ++ v :: l) self)) eq_refl)
      as (b & Hrun & Hb).
    exists b. split; [|exact Hb]. rewrite Hrun. reflexivity.
Qed.

(** X4.  The stack is last in, first out.  When the entries above
    [rest] are v, then l (v the oldest), popping once per entry returns,
    leaves the stack [rest] and leaves in the complex view the oldest of
    the entries removed, v. *)
Theorem pops_restore_oldest {p} (rest : list (vec Cnum (extent (local_no p)))) v l
    (self : ParticleMesh p) :
  stack self = rest ++ v :: l ->
  exists self',
    times (S (length l)) pop self = (Return tt, self') /\
    stack self' = rest /\
    complex self' = v.
Proof.
  intros E. destruct (pops_run rest v l self E) as (b & Hrun & Hb).
  exists (set_stack rest (set_buffer b self)).
  split; [exact Hrun|]. split; [reflexivity|exact Hb].
Qed.

(** X5.  One pop more than the stack has entries raises IndexError, on
    every mesh; the stack is empty by then. *)
Theorem pop_beyond_depth_raises {p} (self : ParticleMesh p) :
  fst (times (S (length (stack self))) pop self) = Raise IndexError /\
  stack (snd (times (S (length (stack self))) pop self)) = [].
Proof.
  destruct (stack self) as [|v l] eqn:E.
  - simpl. rewrite bind_unfold, (pop_run_empty self E). simpl. split; [reflexivity|exact E].
  - destruct (pops_run [] v l self E) as (b & Hrun & _).
    change (times (S (length (v :: l))) pop self)
      with ((pop ;; times (S (length l)) pop) self).
    assert (Hsplit : forall n (s : ParticleMesh p),
               (pop ;; times n pop) s = (times n pop ;; pop) s).
    { induction n as [|n IH]; intros s.
      - simpl. unfold bind, ret. destruct (pop s) as [[[]|e] s']; reflexivity.
      - simpl. rewrite bind_assoc. apply bind_ext. intros _ s'. apply IH. }
    rewrite Hsplit, bind_unfold, Hrun.
    rewrite (pop_run_empty (set_stack [] (set_buffer b self)) eq_refl).
    split; reflexivity.
Qed.

(** X6.  n calls to push followed by n calls to pop return and leave
    the complex view and the stack as they were, for every n. *)
Theorem pushes_pops_balance {p} (n : nat) (self : ParticleMesh p) :
  exists self',
    (times n push ;; times n pop) self = (Return tt, self') /\
    complex self' = complex self /\
    stack self' = stack self.
Proof.
  rewrite bind_unfold, pushes_run.
  destruct n as [|n].
  - simpl. rewrite app_nil_r, set_stack_stack. exists self. repeat split.
  - destruct (pops_run (stack self) (complex self) (repeat (complex self) n)
                (set_stack (stack self ++ repeat (complex self) (S n)) self) eq_refl)
      as (b & Hrun & Hb).
    rewrite repeat_length in Hrun. rewrite Hrun.
    eexists. split; [reflexivity|]. split; [exact Hb|reflexivity].
Qed.

(** X7.  A snapshot is a copy.  Whatever a method does to the buffer
    between a push and the matching pop, the pop puts back the complex
    view of before the push and the stack of before the push; the rest
    of the buffer is what the method left, rewritten through the complex
    view. *)
Theorem snapshot_survives_writes {p} (m : M (ParticleMesh p) unit)
    (self : ParticleMesh p) (b : LocalBuffer p) :
  m (set_stack (stack self ++ [complex self]) self)
    = (Return tt, set_buffer b (set_stack (stack self ++ [complex self]) self)) ->
  (push ;; m ;; pop) self
    = (Return tt, set_buffer (assign_output (complex self) b) self) /\
  complex (snd ((push ;; m ;; pop) self)) = complex self /\
  stack (snd ((push ;; m ;; pop) self)) = stack self.
Proof.
  intros Hm.
  assert (Hrun : (push ;; m ;; pop) self
                 = (Return tt, set_buffer (assign_output (complex self) b) self)).
  { rewrite bind_unfold, push_run, bind_unfold, Hm.
    rewrite (pop_run_snoc _ (complex self) (stack self)) by reflexivity.
    now destruct self. }
  rewrite Hrun. split; [reflexivity|]. split; [|reflexivity].
  unfold complex at 1. simpl. apply view_assign_output.
Qed.

(** X8.  Two calls to c2r in a row, with chains c1 and c2, on a mesh
    whose Nmesh is not zero: both return, and the second one applies c2
    to the complex field of before the first call, not to what c1 made
    of it.  The complex view and the stack end as they began. *)
Theorem c2r_twice {p} (c1 c2 : list (TransferFunction p)) (self : ParticleMesh p) :
  Nmesh self <> 0%Z ->
  exists w b2 self',
    kvectors self = Return w /\
    (c2r c1 ;; c2r c2) self = (Return tt, self') /\
    view_output b2 = apply_chain c2 (comm self) w (complex self) /\
    buffer self' = assign_output (complex self) (execute (backward self) b2) /\
    complex self' = complex self /\
    stack self' = stack self.
Proof.
  intros HN.
  destruct (c2r_run c1 self HN) as (w & b1 & Hw & _ & _ & Hrun1).
  set (self1 := set_buffer (assign_output (complex self) (execute (backward self) b1)) self)
    in *.
  assert (Hc : complex self1 = complex self).
  { unfold complex at 1, self1. simpl. apply view_assign_output. }
  destruct (c2r_run c2 self1 HN) as (w' & b2 & Hw' & _ & Hb2 & Hrun2).
  assert (Ew : w' = w).
  { rewrite (kvectors_frame self self1 eq_refl), Hw in Hw'. now injection Hw'. }
  subst w'. rewrite Hc in Hb2, Hrun2.
  exists w, b2,
    (set_buffer (assign_output (complex self) (execute (backward self) b2)) self).
  split; [exact Hw|]. split.
  - rewrite bind_unfold, Hrun1. exact Hrun2.
  - split; [exact Hb2|]. split; [reflexivity|]. split; [|reflexivity].
    unfold complex at 1. simpl. apply view_assign_output.
Qed.

End Snapshots.

Section Wavenumbers.

Context `{engine : PFFT}.

Lemma kvectors_zero {p} (self : ParticleMesh p) :
  Nmesh self = 0%Z -> kvectors self = Raise ZeroDivisionError.
Proof.
  intros HN. unfold kvectors, axes. simpl. unfold kvector at 1, float_div. rewrite HN.
  destruct (Req_EM_T (IZR 0) 0) as [_|E]; [reflexivity|now contradiction E].
Qed.

Lemma kvectors_run {p} (self : ParticleMesh p) :
  Nmesh self <> 0%Z ->
  kvectors self =
    Return
      (map (fun d : fin 3 =>
              {| shape := vinsert d (local_no p !!! d) (vreplicate 3 1%nat);
                 data :=
                   map (fun v => v * (2 * PI / IZR (Nmesh self)))
                     (map (fun v => if Rge_dec v (IZR (Nmesh self `div` 2))
                                    then v - IZR (Nmesh self) else v)
                        (map (fun v => v + IZR (local_o_start p !!! d))
                           (arange (local_no p !!! d)))) |}) axes).
Proof.
  intros HN. unfold kvectors, axes. simpl.
  rewrite !kvector_run by exact HN. reflexivity.
Qed.

Lemma axes_lookup (d : fin 3) : axes !! fin_to_nat d = Some d.
Proof.
  inv_fin d; [reflexivity|]. intros d. inv_fin d; [reflexivity|].
  intros d. inv_fin d; [reflexivity|]. intros d. inv_fin d.
Qed.

(** The cell of local index i of the array of axis d. *)
Lemma kvector_cell {p} (self : ParticleMesh p) (d : fin 3) (i : nat) :
  Nmesh self <> 0%Z ->
  (i < local_no p !!! d)%nat ->
  exists w wd,
    kvectors self = Return w /\
    w !! fin_to_nat d = Some wd /\
    data wd !! i =
      Some (IZR (folded_frequency (Nmesh self) (Z.of_nat i + local_o_start p !!! d))
            * (2 * PI / IZR (Nmesh self))).
Proof.
  intros HN Hi. eexists; eexists. split; [apply (kvectors_run self HN)|]. split.
  - apply lookup_map, axes_lookup.
  - simpl. rewrite <- fold_cell.
    apply (lookup_map (fun v => v * (2 * PI / IZR (Nmesh self)))).
    apply (lookup_map (fun v => if Rge_dec v (IZR (Nmesh self `div` 2))
                                then v - IZR (Nmesh self) else v)).
    apply (lookup_map (fun v => v + IZR (local_o_start p !!! d))).
    now apply lookup_arange.
Qed.

Lemma extent_one_axis (d : fin 3) (n : nat) :
  extent (vinsert d n (vreplicate 3 1%nat)) = n.
Proof.
  unfold extent.
  inv_fin d; [simpl; lia|]. intros d. inv_fin d; [simpl; lia|].
  intros d. inv_fin d; [simpl; lia|]. intros d. inv_fin d.
Qed.

(** X9.  Whenever transfer can build its k-vectors, it builds one array
    per axis and each reshape is legitimate: the shape given to reshape
    has as many cells as the array reshaped.  The k-vectors cannot be
    built exactly when Nmesh is zero, and the error is then
    ZeroDivisionError. *)
Theorem kvectors_well_shaped {p} (self : ParticleMesh p) :
  match kvectors self with
  | Return w =>
      Nmesh self <> 0%Z /\
      length w = Ndim /\
      Forall (fun wd => extent (shape wd) = length (data wd)) w
  | Raise e => e = ZeroDivisionError /\ Nmesh self = 0%Z
  end.
Proof.
  destruct (decide (Nmesh self = 0%Z)) as [HN|HN].
  - rewrite (kvectors_zero self HN). now split.
  - rewrite (kvectors_run self HN). split; [exact HN|]. split; [reflexivity|].
    apply Forall_forall. intros wd Hin. apply list_elem_of_In, in_map_iff in Hin.
    destruct Hin as (d & <- & _). simpl.
    rewrite extent_one_axis, !length_map. unfold arange.
    now rewrite length_map, length_seq.
Qed.

Lemma folded_frequency_range (N k : Z) :
  (0 <= k < N)%Z ->
  (2 * folded_frequency N k < N)%Z /\
  (- N - 1 <= 2 * folded_frequency N k)%Z /\
  (folded_frequency N k = k \/ folded_frequency N k = k - N)%Z.
Proof.
  intros Hk. unfold folded_frequency.
  pose proof (Z.div_mod N 2 ltac:(lia)) as Hdm.
  pose proof (Z.mod_pos_bound N 2 ltac:(lia)) as Hm.
  destruct (Z.ltb_spec k (N `div` 2)) as [Hlt|Hge]; lia.
Qed.

(** X10.  On a mesh of Nmesh > 0 points, for a cell whose global index
    i + o lies on the mesh (0 <= i + o < Nmesh), the wavenumber is the
    product of an integer frequency f with 2 pi / Nmesh, where f is
    i + o or i + o - Nmesh and lies in the half-open band
    -(Nmesh + 1) / 2 <= f < Nmesh / 2 (as integers: -Nmesh - 1 <= 2 f and
    2 f < Nmesh). *)
Theorem kvector_frequency_band {p} (self : ParticleMesh p) (d : fin 3) (i : nat) :
  (0 < Nmesh self)%Z ->
  (i < local_no p !!! d)%nat ->
  (0 <= Z.of_nat i + local_o_start p !!! d < Nmesh self)%Z ->
  exists w wd f,
    kvectors self = Return w /\
    w !! fin_to_nat d = Some wd /\
    data wd !! i = Some (IZR f * (2 * PI / IZR (Nmesh self))) /\
    (f = Z.of_nat i + local_o_start p !!! d \/
     f = Z.of_nat i + local_o_start p !!! d - Nmesh self)%Z /\
    (- Nmesh self - 1 <= 2 * f)%Z /\
    (2 * f < Nmesh self)%Z.
Proof.
  intros HN Hi Hk.
  destruct (kvector_cell self d i ltac:(lia) Hi) as (w & wd & Hw & Hd & Hv).
  destruct (folded_frequency_range _ _ Hk) as (Hup & Hlo & Hf).
  exists w, wd, (folded_frequency (Nmesh self) (Z.of_nat i + local_o_start p !!! d)).
  split; [exact Hw|]. split; [exact Hd|]. split; [exact Hv|].
  split; [exact Hf|]. split; [exact Hlo|exact Hup].
Qed.

(** X11.  On a mesh of at least two points, among the cells whose
    global index lies on the mesh, the wavenumber is zero at global
    index 0 and nowhere else. *)
Theorem kvector_zero_mode {p} (self : ParticleMesh p) (d : fin 3) (i : nat) :
  (2 <= Nmesh self)%Z ->
  (i < local_no p !!! d)%nat ->
  (0 <= Z.of_nat i + local_o_start p !!! d < Nmesh self)%Z ->
  exists w wd v,
    kvectors self = Return w /\
    w !! fin_to_nat d = Some wd /\
    data wd !! i = Some v /\
    (v = 0 <-> (Z.of_nat i + local_o_start p !!! d = 0)%Z).
Proof.
  intros HN Hi Hk.
  destruct (kvector_cell self d i ltac:(lia) Hi) as (w & wd & Hw & Hd & Hv).
  eexists w, wd, _. split; [exact Hw|]. split; [exact Hd|]. split; [exact Hv|].
  assert (HNr : 0 < IZR (Nmesh self)) by (apply IZR_lt; lia).
  pose proof PI_RGT_0 as Hpi.
  assert (Hc : 2 * PI / IZR (Nmesh self) <> 0).
  { apply Rgt_not_eq. apply Rdiv_lt_0_compat; lra. }
  unfold folded_frequency.
  destruct (Z.ltb_spec (Z.of_nat i + local_o_start p !!! d) (Nmesh self `div` 2))
    as [Hlt|Hge].
  - split.
    + intros H0. apply Rmult_integral in H0. destruct H0 as [H0|H0]; [|contradiction].
      now apply eq_IZR_R0.
    + intros ->. apply Rmult_0_l.
  - split.
    + intros H0. apply Rmult_integral in H0. destruct H0 as [H0|H0]; [|contradiction].
      apply eq_IZR_R0 in H0. lia.
    + intros H0. exfalso. rewrite H0 in Hge.
      assert (1 <= Nmesh self `div` 2)%Z by (apply Z.div_le_lower_bound; lia). lia.
Qed.

End Wavenumbers.

Section Scaling.

Context `{engine : PFFT} `{kernel : CIC}.

Local Open Scope method_scope.

(** ** r2c *)


(** X14.  On a mesh whose box size is zero every division by BoxSize
    raises ZeroDivisionError: transform and transform0 raise for every
    batch, the empty one included, and r2c() raises before it writes
    anything, leaving the object as it was. *)
Theorem zero_box_raises {p} (self : ParticleMesh p) (x : list Position) (mass : Mass) :
  BoxSize self = 0 ->
  transform self x = Raise ZeroDivisionError /\
  transform0 self x = Raise ZeroDivisionError /\
  r2c None mass self = (Raise ZeroDivisionError, self).
Proof.
  intros HB.
  assert (Hd : forall a, float_div a (BoxSize self) = Raise ZeroDivisionError).
  { intros a. unfold float_div.
    destruct (Req_EM_T (BoxSize self) 0) as [_|E]; [reflexivity|contradiction]. }
  unfold transform, transform0. rewrite !Hd. simpl.
  split; [reflexivity|]. split; [reflexivity|].
  cbv beta iota delta [r2c bind ret eval]. rewrite Hd. reflexivity.
Qed.

(** X15.  On the mesh that __init__ has just returned, with a box size
    that is not zero and for which (1.0 / BoxSize) ** 3 is a finite
    float, r2c() without positions returns, and the buffer it hands to
    the forward plan has an all-zero real view. *)
Theorem r2c_on_fresh_mesh BoxSize Nmesh comm np verbose dtype (mass : Mass) :
  BoxSize <> 0 ->
  finite_float (1 / BoxSize) ->
  finite_float ((1 / BoxSize) ^ 3) ->
  match __init__ BoxSize Nmesh comm np verbose dtype with
  | Return (existT p self) =>
      exists b,
        r2c None mass self = (Return tt, set_buffer (execute (forward self) b) self) /\
        view_input b = vreplicate _ 0
  | Raise _ => True
  end.
Proof.
  intros HB H1 H3. unfold __init__.
  destruct dtype; simpl; [| |exact I].
  all: match goal with |- context [new_ProcMesh ?a ?b] =>
         destruct (new_ProcMesh a b) as [pm|e] end; simpl; [|exact I].
  all: eexists; split;
    [match goal with |- r2c None ?ms ?m = _ => apply (r2c_run m ms HB H1 H3) end|].
  all: rewrite view_assign_input; unfold real; simpl; rewrite view_assign_input.
  all: apply vec_eq; intros i; rewrite vlookup_map, vlookup_replicate; ring.
Qed.

(** ** The coordinate transforms *)

(** X16.  The transforms work position by position: the transform of a
    batch cut in two is the transforms of the two parts, one after the
    other, and it raises when one of them does. *)
Theorem transform_of_chunks {p} (self : ParticleMesh p) (x y : list Position) :
  transform self (x ++ y)
    = obind (transform self x) (fun a =>
      obind (transform self y) (fun b => Return (a ++ b))) /\
  transform0 self (x ++ y)
    = obind (transform0 self x) (fun a =>
      obind (transform0 self y) (fun b => Return (a ++ b))).
Proof.
  unfold transform, transform0.
  destruct (float_div (1 * IZR (Nmesh self)) (BoxSize self)) as [k|e]; simpl.
  - now rewrite !map_app.
  - split; reflexivity.
Qed.

End Scaling.

(** * The further properties at concrete meshes *)

Lemma transfer_outcome_witness :
  fst (transfer [doubling _] degenerate_mesh) = Raise ZeroDivisionError /\
  snd (transfer [doubling _] degenerate_mesh) = degenerate_mesh /\
  fst (transfer [] painted_mesh) = Return tt /\
  snd (transfer [] painted_mesh) = painted_mesh.
Proof.
  destruct (transfer_outcome [doubling _] degenerate_mesh) as [H1 H2].
  destruct (transfer_outcome [] painted_mesh) as [H3 H4].
  split; [exact H1|]. split; [apply H2; left; reflexivity|].
  split; [exact H3|apply H4; right; reflexivity].
Defined.

Lemma script_keeps_stack_witness :
  Nmesh painted_mesh <> 0%Z /\
  stack (snd (script [call_r2c None (scalar 1); call_c2r [doubling _];
                      call_readout None; call_clear] painted_mesh)) = [].
Proof.
  assert (HN : Nmesh painted_mesh <> 0%Z) by (simpl; lia).
  split; [exact HN|].
  destruct (script_keeps_stack
              [call_r2c None (scalar 1); call_c2r [doubling _];
               call_readout None; call_clear] painted_mesh HN)
    as (b & _ & Hs & _).
  exact Hs.
Defined.

Lemma pops_restore_oldest_witness :
  stack (set_stack [vreplicate _ (1, 0); vreplicate _ (2, 0); vreplicate _ (3, 0)]
           painted_mesh)
  = [vreplicate _ (1, 0)] ++ vreplicate _ (2, 0) :: [vreplicate _ (3, 0)] /\
  exists self',
    times 2 pop
      (set_stack [vreplicate _ (1, 0); vreplicate _ (2, 0); vreplicate _ (3, 0)]
         painted_mesh) = (Return tt, self') /\
    stack self' = [vreplicate _ (1, 0)] /\
    complex self' = vreplicate _ (2, 0).
Proof.
  split; [reflexivity|].
  exact (pops_restore_oldest [vreplicate _ (1, 0)] (vreplicate _ (2, 0))
           [vreplicate _ (3, 0)]
           (set_stack [vreplicate _ (1, 0); vreplicate _ (2, 0); vreplicate _ (3, 0)]
              painted_mesh) eq_refl).
Defined.

Lemma snapshot_survives_writes_witness :
  exists b,
    transfer [doubling _]
      (set_stack (stack painted_mesh ++ [complex painted_mesh]) painted_mesh)
    = (Return tt,
       set_buffer b
         (set_stack (stack painted_mesh ++ [complex painted_mesh]) painted_mesh)) /\
    complex (snd ((push ;; transfer [doubling _] ;; pop)%method painted_mesh))
    = complex painted_mesh.
Proof.
  destruct (transfer_run [doubling _]
              (set_stack (stack painted_mesh ++ [complex painted_mesh]) painted_mesh))
    as (w & b & _ & Hrun & _).
  { simpl. lia. }
  exists b. split; [exact Hrun|].
  exact (proj1 (proj2 (snapshot_survives_writes _ painted_mesh b Hrun))).
Defined.

Lemma c2r_twice_witness :
  Nmesh painted_mesh <> 0%Z /\
  fst ((c2r [doubling _] ;; c2r [quarter_turn _])%method painted_mesh) = Return tt /\
  complex (snd ((c2r [doubling _] ;; c2r [quarter_turn _])%method painted_mesh))
  = complex painted_mesh.
Proof.
  assert (HN : Nmesh painted_mesh <> 0%Z) by (simpl; lia).
  split; [exact HN|].
  destruct (c2r_twice [doubling _] [quarter_turn _] painted_mesh HN)
    as (w & b2 & self' & _ & Hrun & _ & _ & Hc & _).
  rewrite Hrun. split; [reflexivity|exact Hc].
Defined.

Lemma c2r_zero_mesh_witness :
  Nmesh degenerate_mesh = 0%Z /\
  fst (c2r [doubling _] degenerate_mesh) = Raise ZeroDivisionError /\
  length (stack (snd (c2r [doubling _] degenerate_mesh))) = 1%nat.
Proof.
  split; [reflexivity|].
  rewrite (c2r_zero_mesh [doubling _] degenerate_mesh eq_refl).
  split; reflexivity.
Defined.

Lemma kvector_frequency_band_witness :
  (0 < Nmesh mesh7)%Z /\
  exists w wd f,
    kvectors mesh7 = Return w /\
    w !! 0%nat = Some wd /\
    data wd !! 3%nat = Some (IZR f * (2 * PI / IZR 7)) /\
    (f = 3 \/ f = 3 - 7)%Z /\
    (- 7 - 1 <= 2 * f)%Z /\
    (2 * f < 7)%Z.
Proof.
  assert (HN : (0 < Nmesh mesh7)%Z) by (simpl; lia).
  split; [exact HN|].
  apply (kvector_frequency_band mesh7 0%fin 3%nat HN).
  - change (3 < 7)%nat. lia.
  - change (0 <= 3 + 0 < 7)%Z. lia.
Defined.

Lemma kvector_zero_mode_witness :
  (2 <= Nmesh mesh8)%Z /\
  exists w wd,
    kvectors mesh8 = Return w /\
    w !! 2%nat = Some wd /\
    data wd !! 0%nat = Some 0.
Proof.
  assert (HN : (2 <= Nmesh mesh8)%Z) by (simpl; lia).
  split; [exact HN|].
  destruct (kvector_zero_mode mesh8 2%fin 0%nat HN)
    as (w & wd & v & Hw & Hd & Hv & Hz).
  { change (0 < 5)%nat. lia. }
  { change (0 <= 0 + 0 < 8)%Z. lia. }
  exists w, wd. split; [exact Hw|]. split; [exact Hd|].
  rewrite Hv. f_equal. apply Hz. reflexivity.
Defined.

Lemma zero_box_raises_witness :
  BoxSize degenerate_mesh = 0 /\
  transform degenerate_mesh [] = Raise ZeroDivisionError /\
  transform0 degenerate_mesh [[# 1; 1; 1]] = Raise ZeroDivisionError /\
  r2c None (scalar 1) degenerate_mesh = (Raise ZeroDivisionError, degenerate_mesh).
Proof.
  split; [reflexivity|].
  destruct (zero_box_raises degenerate_mesh [] (scalar 1) eq_refl) as (H1 & _ & H3).
  destruct (zero_box_raises degenerate_mesh [[# 1; 1; 1]] (scalar 1) eq_refl)
    as (_ & H2 & _).
  split; [exact H1|]. split; [exact H2|exact H3].
Defined.

Lemma r2c_on_fresh_mesh_witness :
  1 <> 0 /\
  finite_float (1 / 1) /\
  finite_float ((1 / 1) ^ 3) /\
  exists b,
    r2c None (scalar 1) fresh_mesh
    = (Return tt, set_buffer (execute (forward fresh_mesh) b) fresh_mesh) /\
    view_input b = vreplicate _ 0.
Proof.
  assert (HB : 1 <> 0) by lra.
  assert (H1 : finite_float (1 / 1))
    by (apply finite_float_small; rewrite Rabs_pos_eq; lra).
  assert (H3 : finite_float ((1 / 1) ^ 3))
    by (apply finite_float_small; simpl; rewrite Rabs_pos_eq; lra).
  split; [exact HB|]. split; [exact H1|]. split; [exact H3|].
  exact (r2c_on_fresh_mesh (engine := one_rank) 1 2%Z None None false f8 (scalar 1)
           HB H1 H3).
Defined.

(** C3, as the claim states it, fails on a mesh of 7 points: the local
    index 3 at offset 0 is below the half 7/2, yet its wavenumber is
    -4 * (2 pi / 7), not 3 * (2 pi / 7). *)
Lemma kvector_fold_is_not_at_the_half :
  IZR 3 + IZR 0 < IZR (Nmesh mesh7) / 2 /\
  exists w wd,
    kvectors mesh7 = Return w /\
    w !! 0%nat = Some wd /\
    data wd !! 3%nat = Some (IZR (-4) * (2 * PI / IZR 7)) /\
    data wd !! 3%nat <> Some (IZR 3 * (2 * PI / IZR 7)).
Proof.
  split; [simpl; lra|].
  destruct (kvector_cell mesh7 0%fin 3%nat) as (w & wd & Hw & Hd & Hv).
  { simpl. lia. }
  { change (3 < 7)%nat. lia. }
  exists w, wd. split; [exact Hw|]. split; [exact Hd|].
  change (data wd !! 3%nat = Some (IZR (-4) * (2 * PI / IZR 7))) in Hv.
  split; [exact Hv|].
  rewrite Hv. intros [= E].
  pose proof PI_RGT_0 as Hpi.
  assert (Hc : 0 < 2 * PI / IZR 7) by (apply Rdiv_lt_0_compat; lra).
  nra.
Qed.

(** C7, as the claim states it, fails in the arithmetic of the code.  On
    the second half of a mesh of 128 points with box size 1.0
    (local_i_start = 64), for the position x = 0.00234375 on the first
    axis: transform0 gives 0.3 (the float 5404319552844595 * 2^-54),
    transform gives -63.7 (the float -8964978008234394 * 2^-47), and
    adding 64 back gives 0.29999999999999716
    (5404319552844544 * 2^-54), which is not transform0(x). *)
Lemma transform0_is_not_transform_plus_start :
  exists g l,
    transform0_binary64 second_half_of_128 128 Binary64.one
      [[# x_00234375; Binary64.of_int 0; Binary64.of_int 0]] = Return [g] /\
    transform_binary64 second_half_of_128 128 Binary64.one
      [[# x_00234375; Binary64.of_int 0; Binary64.of_int 0]] = Return [l] /\
    g !!! 0%fin = S754_finite false 5404319552844595 (-54) /\
    l !!! 0%fin = S754_finite true 8964978008234394 (-47) /\
    Binary64.add (l !!! 0%fin) (Binary64.of_int 64)
      = S754_finite false 5404319552844544 (-54) /\
    Binary64.eqb (g !!! 0%fin) (Binary64.add (l !!! 0%fin) (Binary64.of_int 64)) = false.
Proof.
  exists [# S754_finite false 5404319552844595 (-54); S754_zero false; S754_zero false],
         [# S754_finite true 8964978008234394 (-47); S754_zero false; S754_zero false].
  repeat split; vm_compute; reflexivity.
Qed.
